(** * CSVFileParser: a shallow embedding of
    chainer_chemistry/dataset/parsers/csv_file_parser.py

    The parser reads a table, turns every row's SMILES string into a
    molecule, extracts features, and collects them slot by slot.  RDKit,
    pandas, numpy and the preprocessor are collaborators of the file: they
    are kept abstract in the class [Toolkit] and in the [Preprocessor]
    object, and every call may raise. *)

From Stdlib Require Import ZArith String List Bool Lia.
From stdpp Require Import base list.
Import ListNotations.
Local Open Scope string_scope.
Local Open Scope list_scope.

(** ** Python values and exceptions *)

#[warnings="-register-all"]
Inductive pyobj : Type :=
| PyNone
| PyNaN
| PyInt (z : Z)
| PyStr (s : string)
| PyList (l : list pyobj)
| PyTuple (t : list pyobj)
| PyArray (shape : list nat) (data : list Z).

(** The exception classes the file can meet.  [ExceptionSubclass] stands
    for any other class deriving from [Exception]; [BaseExceptionOnly] for
    the ones that do not (KeyboardInterrupt, SystemExit, ...). *)
Inductive exn_class : Type :=
| MolFeatureExtractionError
| AssertionError
| IndexError
| TypeError
| ValueError
| KeyError
| AttributeError
| ExceptionSubclass (name : string)
| BaseExceptionOnly (name : string).

Record exn : Type := Exn { exn_type : exn_class; exn_args : list pyobj }.

Definition class_name (c : exn_class) : string :=
  match c with
  | MolFeatureExtractionError => "MolFeatureExtractionError"
  | AssertionError => "AssertionError"
  | IndexError => "IndexError"
  | TypeError => "TypeError"
  | ValueError => "ValueError"
  | KeyError => "KeyError"
  | AttributeError => "AttributeError"
  | ExceptionSubclass name => name
  | BaseExceptionOnly name => name
  end.

(** [isinstance(e, Exception)] *)
Definition is_Exception (e : exn) : bool :=
  match exn_type e with
  | BaseExceptionOnly _ => false
  | _ => true
  end.

Definition is_MolFeatureExtractionError (e : exn) : bool :=
  match exn_type e with
  | MolFeatureExtractionError => true
  | _ => false
  end.

Definition is_ValueError (e : exn) : bool :=
  match exn_type e with
  | ValueError => true
  | _ => false
  end.

Definition is_AttributeError (e : exn) : bool :=
  match exn_type e with
  | AttributeError => true
  | _ => false
  end.

Inductive result (A : Type) : Type :=
| Ok (a : A)
| Raise (e : exn).
Arguments Ok {A} a.
Arguments Raise {A} e.

(** ** numpy arrays, as far as the parser looks at them

    An array is known by its dtype tag and by the items along its first
    axis; [array_len] is its leading dimension. *)

Inductive dtype : Type := InferredDtype | ObjectDtype.

Record ndarray : Type := NdArray { array_dtype : dtype; array_items : list pyobj }.

Definition array_len (a : ndarray) : nat := length (array_items a).

(** The value bound to [result] in [parse]: a tuple of arrays, or anything
    else (a single array). *)
Inductive pyresult : Type :=
| ResTuple (arrays : list ndarray)
| ResArray (a : ndarray).

(** ** pandas data frames *)

Record DataFrame : Type := { columns : list string; rows : list (list pyobj) }.

Fixpoint index_of (c : string) (cols : list string) : option nat :=
  match cols with
  | [] => None
  | c' :: cols' =>
      if String.eqb c c' then Some 0 else option_map S (index_of c cols')
  end.

(** [df.columns.get_loc(c)], for a frame whose column names are distinct. *)
Definition get_loc (df : DataFrame) (c : string) : result nat :=
  match index_of c (columns df) with
  | Some i => Ok i
  | None => Raise (Exn KeyError [PyStr c])
  end.

(** [row[i]] on a row of [df.itertuples(index=False)].  The frame is
    rectangular: a cell missing from the raw line reads as NaN. *)
Definition row_get (row : list pyobj) (i : nat) : pyobj := nth i row PyNaN.

(** ** The logger *)

Inductive level : Type := WARNING | INFO.

Inductive message : Type :=
| ParseFailed (type_name : string) (args : list pyobj)
| Traceback (e : exn)
| PreprocessFinished (fail success total : nat)
| SmilesIsNone.

Definition log_record : Type := level * message.

(** ** Collaborators *)

Class Toolkit : Type := {
  mol : Type;
  dataset : Type;
  MolFromSmiles : pyobj -> result (option mol);
  MolToSmiles : mol -> result string;
  read_csv : string -> result DataFrame;
  from_csv : string -> result DataFrame;
  (** the exception, if any, with which [numpy.asarray] rejects a list *)
  asarray_error : list pyobj -> option exn;
  (** iteration over an array, as unpacking it into positional arguments
      performs it *)
  iter_ndarray : ndarray -> result (list pyresult);
  NumpyTupleDataset : list pyresult -> result dataset
}.

Section Parser.

Context {tk : Toolkit}.

Inductive Preprocessor : Type :=
| MolPreprocessor
    (prepare_smiles_and_mol : mol -> result (string * mol))
    (get_input_features : mol -> result pyobj)
| OtherPreprocessor (process : string -> result pyresult).

(** The attributes [__init__] fixes ... *)
Record parser_config : Type := {
  preprocessor : Preprocessor;
  labels : option (list string);
  smiles_col : string;
  postprocess_label : option (pyobj -> result pyobj);
  postprocess_fn : option (list pyresult -> result pyresult)
}.

(** ... and the ones [parse] and [get_smiles] change: [self.smiles] and the
    records handed to [self.logger], oldest first. *)
Record parser_state : Type := {
  smiles : option (list string);
  logger : list log_record
}.

Inductive labels_arg : Type :=
| LabelsNone
| LabelsStr (s : string)
| LabelsList (l : list string).

Definition init (pp : Preprocessor) (labels_a : labels_arg) (smiles_col_a : string)
    (postprocess_label_a : option (pyobj -> result pyobj))
    (postprocess_fn_a : option (list pyresult -> result pyresult))
    : parser_config * parser_state :=
  ({| preprocessor := pp;
      labels := match labels_a with
                | LabelsNone => None
                | LabelsStr s => Some [s]
                | LabelsList l => Some l
                end;
      smiles_col := smiles_col_a;
      postprocess_label := postprocess_label_a;
      postprocess_fn := postprocess_fn_a |},
   {| smiles := None; logger := [] |}).

(** ** Statements that change [self] and may raise *)

Definition M (A : Type) : Type := parser_state -> result A * parser_state.

Definition pure {A} (a : A) : M A := fun s => (Ok a, s).

Definition bind {A B} (m : M A) (k : A -> M B) : M B :=
  fun s => match m s with
           | (Ok a, s') => k a s'
           | (Raise e, s') => (Raise e, s')
           end.

Definition call {A} (r : result A) : M A := fun s => (r, s).

Definition raise {A} (e : exn) : M A := fun s => (Raise e, s).

(** [try: body except ...: handler]; a handler of [None] lets the exception
    through.  What the body did to [self] before raising stays done. *)
Definition try_except {A} (body : M A) (handler : exn -> option (M A)) : M A :=
  fun s => match body s with
           | (Ok a, s') => (Ok a, s')
           | (Raise e, s') =>
               match handler e with
               | Some h => h s'
               | None => (Raise e, s')
               end
           end.

(** A statement [preserves] a relation when the parser it leaves, returning
    or raising, is related to the one it started from. *)
Definition preserves (P : parser_state -> parser_state -> Prop) {A} (m : M A)
    : Prop :=
  forall s, P s (snd (m s)).

(** Two runs of a statement [agree] up to a relation on parsers when, from
    related parsers, they end alike and leave related parsers. *)
Definition agrees (R : parser_state -> parser_state -> Prop) {A} (m : M A)
    : Prop :=
  forall s1 s2, R s1 s2 ->
    fst (m s1) = fst (m s2) /\ R (snd (m s1)) (snd (m s2)).

Notation "'let*' x ':=' c 'in' k" := (bind c (fun x => k))
  (at level 10, x pattern, c at level 100, k at level 200).

Definition log (lv : level) (msg : message) : M unit :=
  fun s => (Ok tt, {| smiles := smiles s; logger := logger s ++ [(lv, msg)] |}).

(** [self.smiles = []] *)
Definition reset_smiles : M unit :=
  fun s => (Ok tt, {| smiles := Some []; logger := logger s |}).

(** [self.smiles.append(x)] *)
Definition smiles_append (x : string) : M unit :=
  fun s => match smiles s with
           | Some l => (Ok tt, {| smiles := Some (l ++ [x]); logger := logger s |})
           | None => (Raise (Exn AttributeError []), s)
           end.

(** ** The row loop of [parse] *)

Record locals : Type := {
  features : option (list (list pyobj));
  fail_count : nat;
  success_count : nat
}.

Definition failed (lo : locals) : locals :=
  {| features := features lo;
     fail_count := S (fail_count lo);
     success_count := success_count lo |}.

(** How the [try] statement of a row ends: with [continue], or by falling
    through to the accumulation with the two names it bound. *)
Inductive flow : Type :=
| Continue (lo : locals)
| Proceed (input_features : pyobj) (row_labels : pyobj).

Definition try_block (cfg : parser_config) (retain_smiles : bool)
    (prepare_smiles_and_mol : mol -> result (string * mol))
    (get_input_features : mol -> result pyobj)
    (lo : locals) (smiles_v row_labels : pyobj) : M flow :=
  let* m := call (MolFromSmiles smiles_v) in
  match m with
  | None => pure (Continue (failed lo))
  | Some m =>
      let* (standardized_smiles, m) := call (prepare_smiles_and_mol m) in
      let* input_features := call (get_input_features m) in
      let* row_labels :=
        match postprocess_label cfg with
        | Some f => call (f row_labels)
        | None => pure row_labels
        end in
      let* _ :=
        if retain_smiles then
          let* s := call (MolToSmiles m) in
          if String.eqb standardized_smiles s
          then smiles_append standardized_smiles
          else raise (Exn AssertionError [])
        else pure tt in
      pure (Proceed input_features row_labels)
  end.

Definition except_clauses (lo : locals) (e : exn) : option (M flow) :=
  if is_MolFeatureExtractionError e then
    Some (pure (Continue (failed lo)))
  else if is_Exception e then
    Some (let* _ := log WARNING (ParseFailed (class_name (exn_type e)) (exn_args e)) in
          let* _ := log INFO (Traceback e) in
          pure (Continue (failed lo)))
  else None.

(** Python's list indexing: a negative index counts from the end. *)
Definition py_index (len : nat) (i : Z) : option nat :=
  let j := if (i <? 0)%Z then (i + Z.of_nat len)%Z else i in
  if ((0 <=? j)%Z && (j <? Z.of_nat len)%Z)%bool then Some (Z.to_nat j) else None.

(** [features[i].append(v)] *)
Definition slot_append (fs : list (list pyobj)) (i : Z) (v : pyobj)
    : result (list (list pyobj)) :=
  match py_index (length fs) i with
  | Some j => Ok (alter (fun slot => slot ++ [v]) j fs)
  | None => Raise (Exn IndexError [PyStr "list index out of range"])
  end.

(** [for i in range(len(input_features)): features[i].append(input_features[i])],
    from index [i] on. *)
Fixpoint append_each (i : nat) (vals : list pyobj) (fs : list (list pyobj))
    : result (list (list pyobj)) :=
  match vals with
  | [] => Ok fs
  | v :: vals' =>
      match slot_append fs (Z.of_nat i) v with
      | Ok fs' => append_each (S i) vals' fs'
      | Raise e => Raise e
      end
  end.

Definition num_features (cfg : parser_config) (input_features : pyobj) : nat :=
  let n := match input_features with
           | PyTuple t => length t
           | _ => 1
           end in
  match labels cfg with
  | Some _ => n + 1
  | None => n
  end.

Definition accumulate (cfg : parser_config) (lo : locals)
    (input_features row_labels : pyobj) : result locals :=
  let fs := match features lo with
            | None => repeat [] (num_features cfg input_features)
            | Some fs => fs
            end in
  match
    match input_features with
    | PyTuple t => append_each 0 t fs
    | _ => slot_append fs 0 input_features
    end
  with
  | Raise e => Raise e
  | Ok fs =>
      match
        match labels cfg with
        | Some _ => slot_append fs (Z.of_nat (length fs) - 1) row_labels
        | None => Ok fs
        end
      with
      | Raise e => Raise e
      | Ok fs =>
          Ok {| features := Some fs;
                fail_count := fail_count lo;
                success_count := S (success_count lo) |}
      end
  end.

Definition loop_body (cfg : parser_config) (retain_smiles : bool)
    (prepare_smiles_and_mol : mol -> result (string * mol))
    (get_input_features : mol -> result pyobj)
    (smiles_index : nat) (labels_index : list nat)
    (lo : locals) (row : list pyobj) : M locals :=
  let smiles_v := row_get row smiles_index in
  let row_labels := PyList (map (row_get row) labels_index) in
  let* fl := try_except
               (try_block cfg retain_smiles prepare_smiles_and_mol
                  get_input_features lo smiles_v row_labels)
               (except_clauses lo) in
  match fl with
  | Continue lo' => pure lo'
  | Proceed input_features row_labels =>
      call (accumulate cfg lo input_features row_labels)
  end.

Fixpoint for_rows (body : locals -> list pyobj -> M locals)
    (rs : list (list pyobj)) (lo : locals) : M locals :=
  match rs with
  | [] => pure lo
  | row :: rs' => let* lo' := body lo row in for_rows body rs' lo'
  end.

Definition initial_locals : locals :=
  {| features := None; fail_count := 0; success_count := 0 |}.

(** ** From accumulators to arrays *)

Definition numpy_asarray (feature : list pyobj) : result ndarray :=
  match asarray_error feature with
  | Some e => Raise e
  | None => Ok (NdArray InferredDtype feature)
  end.

(** [numpy.empty(len(feature), dtype=numpy.ndarray)] filled by
    [feat_array[:] = feature[:]] *)
Definition object_array (feature : list pyobj) : ndarray :=
  NdArray ObjectDtype (firstn (length feature) feature).

Definition to_array (feature : list pyobj) : result ndarray :=
  match numpy_asarray feature with
  | Ok feat_array => Ok feat_array
  | Raise e => if is_ValueError e then Ok (object_array feature) else Raise e
  end.

Fixpoint to_arrays (fs : list (list pyobj)) (ret : list ndarray)
    : result (list ndarray) :=
  match fs with
  | [] => Ok ret
  | feature :: fs' =>
      match to_array feature with
      | Ok feat_array => to_arrays fs' (ret ++ [feat_array])
      | Raise e => Raise e
      end
  end.

(** [for feature in features: ...]: iterating [None] is a TypeError. *)
Definition convert (fs : option (list (list pyobj))) : result (list ndarray) :=
  match fs with
  | None => Raise (Exn TypeError [PyStr "'NoneType' object is not iterable"])
  | Some fs => to_arrays fs []
  end.

(** ** [parse] *)

Definition read_table (filepath : string) : M DataFrame :=
  try_except (call (read_csv filepath))
    (fun e => if is_AttributeError e then Some (call (from_csv filepath)) else None).

Fixpoint get_locs (df : DataFrame) (cs : list string) : result (list nat) :=
  match cs with
  | [] => Ok []
  | c :: cs' =>
      match get_loc df c with
      | Raise e => Raise e
      | Ok i =>
          match get_locs df cs' with
          | Raise e => Raise e
          | Ok is' => Ok (i :: is')
          end
      end
  end.

Definition labels_locs (cfg : parser_config) (df : DataFrame) : result (list nat) :=
  match labels cfg with
  | None => Ok []
  | Some cs => get_locs df cs
  end.

Definition parse_rows (cfg : parser_config) (retain_smiles : bool)
    (prepare_smiles_and_mol : mol -> result (string * mol))
    (get_input_features : mol -> result pyobj)
    (smiles_index : nat) (labels_index : list nat)
    (rs : list (list pyobj)) (lo : locals) : M locals :=
  for_rows (loop_body cfg retain_smiles prepare_smiles_and_mol
              get_input_features smiles_index labels_index) rs lo.

(** Lines 77 to 158: the frame is read, the rows are looped over, the
    accumulators become arrays. *)
Definition parse_frame (cfg : parser_config) (retain_smiles : bool)
    (prepare_smiles_and_mol : mol -> result (string * mol))
    (get_input_features : mol -> result pyobj)
    (df : DataFrame) : M pyresult :=
  let* smiles_index := call (get_loc df (smiles_col cfg)) in
  let* labels_index := call (labels_locs cfg df) in
  let total_count := length (rows df) in
  let* lo := parse_rows cfg retain_smiles prepare_smiles_and_mol
               get_input_features smiles_index labels_index
               (rows df) initial_locals in
  let* ret := call (convert (features lo)) in
  let* _ := log INFO (PreprocessFinished (fail_count lo) (success_count lo)
                        total_count) in
  pure (ResTuple ret).

(** The parser after the summary line of a completed loop. *)
Definition summarized (total_count : nat) (lo : locals) (s : parser_state)
    : parser_state :=
  {| smiles := smiles s;
     logger := logger s ++ [(INFO, PreprocessFinished (fail_count lo)
                                     (success_count lo) total_count)] |}.

(** The positional arguments that unpacking [result] yields. *)
Definition star (r : pyresult) : result (list pyresult) :=
  match r with
  | ResTuple arrays => Ok (map ResArray arrays)
  | ResArray a => iter_ndarray a
  end.

Definition package (cfg : parser_config) (res : pyresult) : M dataset :=
  match res with
  | ResTuple arrays =>
      match postprocess_fn cfg with
      | Some f =>
          let* res' := call (f (map ResArray arrays)) in
          let* args := call (star res') in
          call (NumpyTupleDataset args)
      | None => call (NumpyTupleDataset (map ResArray arrays))
      end
  | ResArray _ =>
      match postprocess_fn cfg with
      | Some f =>
          let* res' := call (f [res]) in
          call (NumpyTupleDataset [res'])
      | None => call (NumpyTupleDataset [res])
      end
  end.


Definition parse (cfg : parser_config) (filepath : string) (retain_smiles : bool)
    : M dataset :=
  let* _ := if retain_smiles then reset_smiles else pure tt in
  let* res :=
    match preprocessor cfg with
    | MolPreprocessor prepare_smiles_and_mol get_input_features =>
        let* df := read_table filepath in
        parse_frame cfg retain_smiles prepare_smiles_and_mol
          get_input_features df
    | OtherPreprocessor process => call (process filepath)
    end in
  package cfg res.

(** [numpy.array(self.smiles)] on a list of strings *)
Definition numpy_array (l : list string) : ndarray :=
  NdArray InferredDtype (map PyStr l).

Definition get_smiles : M (option ndarray) :=
  fun s => match smiles s with
           | None => bind (log WARNING SmilesIsNone) (fun _ => pure None) s
           | Some l => (Ok (Some (numpy_array l)), s)
           end.

(** ** Reading the loop row by row

    [row_outcome] is what a row hands to the accumulators when its [try]
    statement runs to the end, and nothing otherwise; [outcomes] collects
    these over a table, in row order. *)

Definition row_outcome (cfg : parser_config) (retain_smiles : bool)
    (prepare_smiles_and_mol : mol -> result (string * mol))
    (get_input_features : mol -> result pyobj)
    (smiles_index : nat) (labels_index : list nat) (row : list pyobj)
    : option (string * pyobj * pyobj) :=
  match MolFromSmiles (row_get row smiles_index) with
  | Ok (Some m) =>
      match prepare_smiles_and_mol m with
      | Ok (standardized_smiles, m') =>
          match get_input_features m' with
          | Ok input_features =>
              match
                match postprocess_label cfg with
                | Some f => f (PyList (map (row_get row) labels_index))
                | None => Ok (PyList (map (row_get row) labels_index))
                end
              with
              | Ok row_labels =>
                  if retain_smiles then
                    match MolToSmiles m' with
                    | Ok s =>
                        if String.eqb standardized_smiles s
                        then Some (standardized_smiles, input_features, row_labels)
                        else None
                    | Raise _ => None
                    end
                  else Some (standardized_smiles, input_features, row_labels)
              | Raise _ => None
              end
          | Raise _ => None
          end
      | Raise _ => None
      end
  | _ => None
  end.

Definition outcomes (cfg : parser_config) (retain_smiles : bool)
    (prepare_smiles_and_mol : mol -> result (string * mol))
    (get_input_features : mol -> result pyobj)
    (smiles_index : nat) (labels_index : list nat) (rs : list (list pyobj))
    : list (string * pyobj * pyobj) :=
  omap (row_outcome cfg retain_smiles prepare_smiles_and_mol
          get_input_features smiles_index labels_index) rs.

(** The rows of a table whose [try] statement runs to the end. *)
Definition successful_rows (cfg : parser_config) (retain_smiles : bool)
    (prepare_smiles_and_mol : mol -> result (string * mol))
    (get_input_features : mol -> result pyobj)
    (smiles_index : nat) (labels_index : list nat) (rs : list (list pyobj))
    : list (list pyobj) :=
  List.filter
    (fun row => match row_outcome cfg retain_smiles prepare_smiles_and_mol
                        get_input_features smiles_index labels_index row with
                | Some _ => true
                | None => false
                end) rs.

(** The values a record's feature output contributes, one per slot. *)
Definition values (input_features : pyobj) : list pyobj :=
  match input_features with
  | PyTuple t => t
  | _ => [input_features]
  end.

Definition arity (input_features : pyobj) : nat := length (values input_features).

(** Every successful record has the arity of the first one. *)
Definition same_arity (os : list (string * pyobj * pyobj)) : Prop :=
  match os with
  | [] => True
  | o :: os' => Forall (fun o' => arity (snd (fst o')) = arity (snd (fst o))) os'
  end.

End Parser.

(** ** Sequences of calls on one parser object

    Every call returns or raises; the caller goes on with the object as the
    call left it. *)
Fixpoint run_calls {tk : Toolkit} (cfg : parser_config)
    (calls : list (string * bool)) (s : parser_state) : parser_state :=
  match calls with
  | [] => s
  | (filepath, retain_smiles) :: calls' =>
      run_calls cfg calls' (snd (parse cfg filepath retain_smiles s))
  end.

(** ** A small concrete toolkit

    Molecules are their SMILES text; "OCC" and "CCO" both denote ethanol and
    "CCO" is the canonical spelling.  Features are arrays with one entry per
    character, so that molecules of different sizes give ragged slots. *)
Module Demo.

Definition canon (m : string) : string :=
  if String.eqb m "OCC" then "CCO" else m.

Definition known (s : string) : bool :=
  existsb (String.eqb s) ["CCO"; "OCC"; "c1ccccc1"; "C"; "CC"].

Definition mol_from_smiles (x : pyobj) : result (option string) :=
  match x with
  | PyStr s => Ok (if known s then Some s else None)
  | _ => Raise (Exn (ExceptionSubclass "ArgumentError") [])
  end.

Definition frame (cells : list (string * Z)) : DataFrame :=
  {| columns := ["smiles"; "y"];
     rows := map (fun c => [PyStr (fst c); PyInt (snd c)]) cells |}.

Definition mols : DataFrame :=
  frame [("CCO", 1%Z); ("not_a_molecule", 0%Z); ("c1ccccc1", 1%Z)].

Definition ethanol : DataFrame := frame [("CCO", 1%Z); ("OCC", 0%Z)].

Definition bad : DataFrame := frame [("not_a_molecule", 0%Z)].

Definition grow : DataFrame :=
  frame [("C", 1%Z); ("xx", 1%Z); ("CC", 0%Z); ("CCO", 0%Z)].

Definition files (filepath : string) : result DataFrame :=
  if String.eqb filepath "mols.csv" then Ok mols
  else if String.eqb filepath "ethanol.csv" then Ok ethanol
  else if String.eqb filepath "bad.csv" then Ok bad
  else if String.eqb filepath "grow.csv" then Ok grow
  else Raise (Exn (ExceptionSubclass "FileNotFoundError") [PyStr filepath]).

Definition shape_of (x : pyobj) : list nat :=
  match x with
  | PyArray shape _ => shape
  | PyList l => [length l]
  | _ => []
  end.

Definition same_shape (a b : list nat) : bool :=
  Nat.eqb (length a) (length b)
  && forallb (fun p => Nat.eqb (fst p) (snd p)) (combine a b).

Definition ragged (l : list pyobj) : bool :=
  match l with
  | [] => false
  | x :: l' => negb (forallb (fun y => same_shape (shape_of x) (shape_of y)) l')
  end.

Definition tuple_dataset (args : list pyresult) : result (list pyresult) :=
  match args with
  | [] => Raise (Exn ValueError [PyStr "no datasets are given"])
  | _ => Ok args
  end.

Definition rdkit : Toolkit :=
  {| mol := string;
     dataset := list pyresult;
     MolFromSmiles := mol_from_smiles;
     MolToSmiles := fun m => Ok (canon m);
     read_csv := files;
     from_csv := files;
     asarray_error := fun l => if ragged l then Some (Exn ValueError []) else None;
     iter_ndarray := fun _ => Raise (Exn TypeError []);
     NumpyTupleDataset := tuple_dataset |}.

Definition atoms (m : string) : pyobj :=
  PyArray [String.length m] (repeat 6%Z (String.length m)).

Definition bonds (m : string) : pyobj :=
  PyArray [String.length m; String.length m] [].

(** canonical string, molecule rebuilt from it *)
Definition prepare (m : string) : result (string * string) :=
  Ok (canon m, canon m).

(** a preprocessor that forgets to canonicalize the string it returns *)
Definition prepare_raw (m : string) : result (string * string) :=
  Ok (m, m).

Definition atom_features (m : string) : result pyobj := Ok (atoms m).

Definition graph_features (m : string) : result pyobj :=
  Ok (PyTuple [atoms m; bonds m]).

(** aromatic rings are not supported by this extractor *)
Definition plain_features (m : string) : result pyobj :=
  if String.eqb m "c1ccccc1"
  then Raise (Exn MolFeatureExtractionError [PyStr m])
  else Ok (atoms m).

(** one value per character of the molecule: the arity varies *)
Definition growing_features (m : string) : result pyobj :=
  Ok (PyTuple (repeat (PyInt 6) (String.length m))).

Definition config (prep : string -> result (string * string))
    (feat : string -> result pyobj) (labels_a : option (list string))
    : @parser_config rdkit :=
  {| preprocessor := @MolPreprocessor rdkit prep feat;
     labels := labels_a;
     smiles_col := "smiles";
     postprocess_label := None;
     postprocess_fn := None |}.

Definition fresh : parser_state := {| smiles := None; logger := [] |}.

(** the parser right after [self.smiles = []] *)
Definition emptied : parser_state := {| smiles := Some []; logger := [] |}.

Definition cfg_atoms := config prepare atom_features None.
Definition cfg_labelled := config prepare graph_features (Some ["y"]).
Definition cfg_raw := config prepare_raw atom_features None.
Definition cfg_plain := config prepare plain_features None.
Definition cfg_grow := config prepare growing_features None.

(** The loop of [cfg_atoms] over the three rows of "mols.csv". *)
Definition mols_loop : result locals * parser_state :=
  Eval vm_compute in
    @parse_rows rdkit cfg_atoms true prepare atom_features 0 []
      (rows mols) initial_locals emptied.

(** The loop of [cfg_labelled] over the same rows, with the label column. *)
Definition labelled_loop : result locals * parser_state :=
  Eval vm_compute in
    @parse_rows rdkit cfg_labelled true prepare graph_features 0 [1]
      (rows mols) initial_locals emptied.

(** The loop of [cfg_grow] over the first two rows of "grow.csv". *)
Definition grow_loop : result locals * parser_state :=
  Eval vm_compute in
    @parse_rows rdkit cfg_grow true prepare growing_features 0 []
      (firstn 2 (rows grow)) initial_locals emptied.

Definition ethanol_parse : result (list pyresult) * parser_state :=
  Eval vm_compute in @parse rdkit cfg_atoms "ethanol.csv" true fresh.

Definition labelled_parse : result (list pyresult) * parser_state :=
  Eval vm_compute in @parse rdkit cfg_labelled "mols.csv" false fresh.

Definition raw_parse : result (list pyresult) * parser_state :=
  Eval vm_compute in @parse rdkit cfg_raw "ethanol.csv" true fresh.

(** A pandas without [read_csv] for one file, and a numpy that rejects
    ragged lists with another exception than ValueError. *)
Definition read_legacy (filepath : string) : result DataFrame :=
  if String.eqb filepath "legacy.csv" then Raise (Exn AttributeError [])
  else files filepath.

Definition from_legacy (filepath : string) : result DataFrame :=
  if String.eqb filepath "legacy.csv" then Ok mols else files filepath.

Definition old_pandas : Toolkit :=
  {| mol := string;
     dataset := list pyresult;
     MolFromSmiles := mol_from_smiles;
     MolToSmiles := fun m => Ok (canon m);
     read_csv := read_legacy;
     from_csv := from_legacy;
     asarray_error := fun l => if ragged l then Some (Exn ValueError []) else None;
     iter_ndarray := fun _ => Raise (Exn TypeError []);
     NumpyTupleDataset := tuple_dataset |}.

Definition strict_numpy : Toolkit :=
  {| mol := string;
     dataset := list pyresult;
     MolFromSmiles := mol_from_smiles;
     MolToSmiles := fun m => Ok (canon m);
     read_csv := files;
     from_csv := files;
     asarray_error := fun l => if ragged l then Some (Exn TypeError []) else None;
     iter_ndarray := fun _ => Raise (Exn TypeError []);
     NumpyTupleDataset := tuple_dataset |}.

Definition cfg_legacy : @parser_config old_pandas :=
  {| preprocessor := @MolPreprocessor old_pandas prepare atom_features;
     labels := None;
     smiles_col := "smiles";
     postprocess_label := None;
     postprocess_fn := None |}.

(** the user interrupts the run while "CC" is featurized *)
Definition interrupted_features (m : string) : result pyobj :=
  if String.eqb m "CC"
  then Raise (Exn (BaseExceptionOnly "KeyboardInterrupt") [])
  else Ok (atoms m).

Definition cfg_interrupt := config prepare interrupted_features None.

Definition cfg_wrong_column : @parser_config rdkit :=
  {| preprocessor := @MolPreprocessor rdkit prepare atom_features;
     labels := None;
     smiles_col := "SMILES";
     postprocess_label := None;
     postprocess_fn := None |}.

Definition cfg_two_labels := config prepare atom_features (Some ["y"; "z"]).



Definition whole_file (filepath : string) : result pyresult :=
  Ok (ResArray (numpy_array [filepath])).

Definition cfg_other : @parser_config rdkit :=
  {| preprocessor := @OtherPreprocessor rdkit whole_file;
     labels := None;
     smiles_col := "smiles";
     postprocess_label := None;
     postprocess_fn := None |}.

(** The loop of [cfg_interrupt] over the first two rows of "grow.csv". *)
Definition interrupt_loop : result locals * parser_state :=
  Eval vm_compute in
    @parse_rows rdkit cfg_interrupt true prepare interrupted_features 0 []
      (firstn 2 (rows grow)) initial_locals emptied.

Definition retained_parse : result (list pyresult) * parser_state :=
  Eval vm_compute in @parse rdkit cfg_labelled "mols.csv" true fresh.


Definition row_missing : list pyobj := [PyNaN; PyInt 0].

Definition row_ethanol : list pyobj := [PyStr "OCC"; PyInt 0].
Definition row_junk : list pyobj := [PyStr "not_a_molecule"; PyInt 0].
Definition row_benzene : list pyobj := [PyStr "c1ccccc1"; PyInt 1].

(** [completed] and [returned] read a result that is known to be [Ok]. *)
Definition completed (r : result locals * parser_state) : locals :=
  match fst r with
  | Ok lo => lo
  | Raise _ => initial_locals
  end.

Definition returned (r : result (list pyresult) * parser_state)
    : list pyresult :=
  match fst r with
  | Ok d => d
  | Raise _ => []
  end.

End Demo.

(** * Properties *)

Section Facts.

Context {tk : Toolkit}.
Variable cfg : parser_config.
Variable retain_smiles : bool.
Variable prepare_smiles_and_mol : mol -> result (string * mol).
Variable get_input_features : mol -> result pyobj.
Variable smiles_index : nat.
Variable labels_index : list nat.

Abbreviation body := (loop_body cfg retain_smiles prepare_smiles_and_mol
                    get_input_features smiles_index labels_index).
Abbreviation loop := (parse_rows cfg retain_smiles prepare_smiles_and_mol
                    get_input_features smiles_index labels_index).
Abbreviation outcome := (row_outcome cfg retain_smiles prepare_smiles_and_mol
                       get_input_features smiles_index labels_index).
Abbreviation outs := (outcomes cfg retain_smiles prepare_smiles_and_mol
                        get_input_features smiles_index labels_index).
Abbreviation try_statement lo row :=
  (try_except
     (try_block cfg retain_smiles prepare_smiles_and_mol get_input_features lo
        (row_get row smiles_index) (PyList (map (row_get row) labels_index)))
     (except_clauses lo)).

(** [parse] starts by making [self.smiles] a list when it is asked to
    retain: the loop runs in a state that is [ready]. *)
Definition ready (s : parser_state) : Prop :=
  retain_smiles = true -> smiles s <> None.

Definition retained (std : string) (s : parser_state) : parser_state :=
  {| smiles := if retain_smiles
               then option_map (fun l => l ++ [std]) (smiles s)
               else smiles s;
     logger := logger s |}.

(** The two expected ways for a row to fail: RDKit finds no molecule in the
    string, or the preprocessor raises its feature-extraction error while
    preparing the molecule or extracting its features. *)
Inductive expected_failure (row : list pyobj) : Prop :=
| unparseable :
    MolFromSmiles (row_get row smiles_index) = Ok None ->
    expected_failure row
| prepare_failed m e :
    MolFromSmiles (row_get row smiles_index) = Ok (Some m) ->
    prepare_smiles_and_mol m = Raise e ->
    is_MolFeatureExtractionError e = true ->
    expected_failure row
| extraction_failed m std m' e :
    MolFromSmiles (row_get row smiles_index) = Ok (Some m) ->
    prepare_smiles_and_mol m = Ok (std, m') ->
    get_input_features m' = Raise e ->
    is_MolFeatureExtractionError e = true ->
    expected_failure row.

(** The state in which the rows are looped over: [self.smiles] has just
    been made empty if retention was asked for. *)
Definition started (s : parser_state) : parser_state :=
  if retain_smiles then {| smiles := Some []; logger := logger s |} else s.

(** What the failed assertion of a row leaves in the log. *)
Definition assertion_logged (s : parser_state) : parser_state :=
  {| smiles := smiles s;
     logger := logger s ++ [(WARNING, ParseFailed "AssertionError" []);
                            (INFO, Traceback (Exn AssertionError []))] |}.

(** The places at which the [try] statement of a row can raise [e]. *)
Inductive raises_in_try (row : list pyobj) (e : exn) : Prop :=
| raised_by_MolFromSmiles :
    MolFromSmiles (row_get row smiles_index) = Raise e ->
    raises_in_try row e
| raised_by_prepare m :
    MolFromSmiles (row_get row smiles_index) = Ok (Some m) ->
    prepare_smiles_and_mol m = Raise e ->
    raises_in_try row e
| raised_by_features m std m' :
    MolFromSmiles (row_get row smiles_index) = Ok (Some m) ->
    prepare_smiles_and_mol m = Ok (std, m') ->
    get_input_features m' = Raise e ->
    raises_in_try row e
| raised_by_postprocess_label m std m' f post :
    MolFromSmiles (row_get row smiles_index) = Ok (Some m) ->
    prepare_smiles_and_mol m = Ok (std, m') ->
    get_input_features m' = Ok f ->
    postprocess_label cfg = Some post ->
    post (PyList (map (row_get row) labels_index)) = Raise e ->
    raises_in_try row e
| raised_by_MolToSmiles m std m' f l :
    MolFromSmiles (row_get row smiles_index) = Ok (Some m) ->
    prepare_smiles_and_mol m = Ok (std, m') ->
    get_input_features m' = Ok f ->
    match postprocess_label cfg with
    | Some post => post (PyList (map (row_get row) labels_index))
    | None => Ok (PyList (map (row_get row) labels_index))
    end = Ok l ->
    retain_smiles = true ->
    MolToSmiles m' = Raise e ->
    raises_in_try row e.

(** What the generic handler leaves in the log for [e]. *)
Definition failure_logged (e : exn) (s : parser_state) : parser_state :=
  {| smiles := smiles s;
     logger := logger s ++ [(WARNING, ParseFailed (class_name (exn_type e))
                                        (exn_args e));
                            (INFO, Traceback e)] |}.

(** *** The [except] clauses *)

Lemma except_clauses_cases lo e s :
  match except_clauses lo e with
  | Some h =>
      exists s', h s = (Ok (Continue (failed lo)), s') /\ smiles s' = smiles s
  | None => is_Exception e = false
  end.
Proof.
  unfold except_clauses.
  destruct (is_MolFeatureExtractionError e).
  - exists s. split; reflexivity.
  - destruct (is_Exception e); [|reflexivity].
    eexists. split; reflexivity.
Qed.

Lemma raised_in_try lo e s :
  (exists s', match except_clauses lo e with
              | Some h => h s
              | None => (Raise e, s)
              end = (Ok (Continue (failed lo)), s') /\ smiles s' = smiles s)
  \/ (match except_clauses lo e with
      | Some h => h s
      | None => (Raise e, s)
      end = (Raise e, s) /\ is_Exception e = false).
Proof.
  pose proof (except_clauses_cases lo e s) as H.
  destruct (except_clauses lo e) as [h|].
  - left. exact H.
  - right. split; [reflexivity | exact H].
Qed.

Lemma try_statement_spec lo row s :
  ready s ->
  match outcome row with
  | Some (std, f, l) =>
      try_statement lo row s = (Ok (Proceed f l), retained std s)
  | None =>
      (exists s', try_statement lo row s = (Ok (Continue (failed lo)), s')
                  /\ smiles s' = smiles s)
      \/ (exists e, try_statement lo row s = (Raise e, s)
                    /\ is_Exception e = false)
  end.
Proof.
  intros Hready.
  unfold row_outcome, try_except, try_block, bind, call, pure, retained.
  destruct (MolFromSmiles (row_get row smiles_index)) as [[m|]|e].
  2: { left. exists s. split; reflexivity. }
  2: { destruct (raised_in_try lo e s) as [H|[H1 H2]]; [left; exact H|right; eauto]. }
  destruct (prepare_smiles_and_mol m) as [[std m']|e].
  2: { destruct (raised_in_try lo e s) as [H|[H1 H2]]; [left; exact H|right; eauto]. }
  destruct (get_input_features m') as [f|e].
  2: { destruct (raised_in_try lo e s) as [H|[H1 H2]]; [left; exact H|right; eauto]. }
  destruct (postprocess_label cfg) as [pl|].
  - destruct (pl (PyList (map (row_get row) labels_index))) as [l|e].
    2: { destruct (raised_in_try lo e s) as [H|[H1 H2]]; [left; exact H|right; eauto]. }
    destruct retain_smiles eqn:Hr.
    + destruct (MolToSmiles m') as [c|e].
      2: { destruct (raised_in_try lo e s) as [H|[H1 H2]]; [left; exact H|right; eauto]. }
      destruct (String.eqb std c).
      * unfold smiles_append.
        destruct (smiles s) as [l0|] eqn:Hs; [reflexivity|].
        exfalso. apply Hready; [exact Hr | exact Hs].
      * unfold raise.
        destruct (raised_in_try lo (Exn AssertionError []) s) as [H|[H1 H2]];
          [left; exact H|discriminate H2].
    + destruct s; reflexivity.
  - destruct retain_smiles eqn:Hr.
    + destruct (MolToSmiles m') as [c|e].
      2: { destruct (raised_in_try lo e s) as [H|[H1 H2]]; [left; exact H|right; eauto]. }
      destruct (String.eqb std c).
      * unfold smiles_append.
        destruct (smiles s) as [l0|] eqn:Hs; [reflexivity|].
        exfalso. apply Hready; [exact Hr | exact Hs].
      * unfold raise.
        destruct (raised_in_try lo (Exn AssertionError []) s) as [H|[H1 H2]];
          [left; exact H|discriminate H2].
    + destruct s; reflexivity.
Qed.


(** *** Indexing and appending *)

Lemma py_index_nat n i :
  py_index n (Z.of_nat i) = if (i <? n)%nat then Some i else None.
Proof.
  unfold py_index.
  destruct (Z.ltb_spec (Z.of_nat i) 0) as [Hneg|_]; [lia|].
  destruct (Nat.ltb_spec i n) as [Hlt|Hge].
  - replace (0 <=? Z.of_nat i)%Z with true by (symmetry; apply Z.leb_le; lia).
    replace (Z.of_nat i <? Z.of_nat n)%Z with true by (symmetry; apply Z.ltb_lt; lia).
    simpl. f_equal. lia.
  - replace (Z.of_nat i <? Z.of_nat n)%Z with false by (symmetry; apply Z.ltb_ge; lia).
    rewrite andb_false_r. reflexivity.
Qed.

Lemma py_index_minus_one n :
  py_index n (Z.of_nat n - 1) =
  match n with 0 => None | S k => Some k end.
Proof.
  destruct n as [|k]; [reflexivity|].
  replace (Z.of_nat (S k) - 1)%Z with (Z.of_nat k) by lia.
  rewrite py_index_nat.
  destruct (Nat.ltb_spec k (S k)); [reflexivity | lia].
Qed.

Lemma slot_append_nat fs i v :
  slot_append fs (Z.of_nat i) v =
  if (i <? length fs)%nat
  then Ok (alter (fun slot => slot ++ [v]) i fs)
  else Raise (Exn IndexError [PyStr "list index out of range"]).
Proof.
  unfold slot_append. rewrite py_index_nat.
  destruct (i <? length fs)%nat; reflexivity.
Qed.

Lemma slot_append_length fs i v fs' :
  slot_append fs i v = Ok fs' -> length fs' = length fs.
Proof.
  unfold slot_append. destruct (py_index (length fs) i); [|discriminate].
  intros H. injection H as <-. apply length_alter.
Qed.

Lemma slot_append_last fs slot v :
  slot_append (fs ++ [slot]) (Z.of_nat (length (fs ++ [slot])) - 1) v
  = Ok (fs ++ [slot ++ [v]]).
Proof.
  unfold slot_append. rewrite py_index_minus_one.
  rewrite length_app. simpl. replace (length fs + 1) with (S (length fs)) by lia.
  f_equal.
  replace (length fs) with (length fs + 0) at 1 by lia.
  rewrite alter_app_r. reflexivity.
Qed.

Lemma append_each_length vals : forall i fs fs',
  append_each i vals fs = Ok fs' -> length fs' = length fs.
Proof.
  induction vals as [|v vals IH]; intros i fs fs' H; simpl in H.
  - injection H as <-. reflexivity.
  - destruct (slot_append fs (Z.of_nat i) v) as [fs1|e] eqn:H1; [|discriminate].
    rewrite (IH _ _ _ H). eapply slot_append_length. exact H1.
Qed.

(** Values that all find a slot go one to each, left to right. *)
Lemma append_each_zip vals : forall pre mid post,
  length mid = length vals ->
  append_each (length pre) vals (pre ++ mid ++ post)
  = Ok (pre ++ zip_with (fun slot v => slot ++ [v]) mid vals ++ post).
Proof.
  induction vals as [|v vals IH]; intros pre mid post Hlen.
  - destruct mid; [reflexivity | discriminate].
  - destruct mid as [|slot mid]; [discriminate|].
    simpl in Hlen. injection Hlen as Hlen.
    cbn [append_each]. rewrite slot_append_nat.
    destruct (Nat.ltb_spec (length pre) (length (pre ++ (slot :: mid) ++ post)))
      as [_|Hge].
    2: { rewrite length_app in Hge. simpl in Hge. lia. }
    rewrite alter_app_r_alt by lia. rewrite Nat.sub_diag.
    cbn [alter list_alter app].
    specialize (IH (pre ++ [slot ++ [v]]) mid post Hlen).
    rewrite length_app in IH. simpl in IH.
    replace (length pre + 1) with (S (length pre)) in IH by lia.
    rewrite <- app_assoc in IH. simpl in IH. rewrite IH.
    rewrite <- app_assoc. reflexivity.
Qed.

(** A value beyond the last slot is an IndexError. *)
Lemma append_each_overflow vals : forall i fs,
  i <= length fs -> length fs < i + length vals ->
  append_each i vals fs = Raise (Exn IndexError [PyStr "list index out of range"]).
Proof.
  induction vals as [|v vals IH]; intros i fs Hle Hlt; simpl in *; [lia|].
  rewrite slot_append_nat.
  destruct (Nat.ltb_spec i (length fs)) as [Hi|Hi]; [|reflexivity].
  apply IH; rewrite length_alter; lia.
Qed.

Lemma feature_append_values f fs :
  match f with
  | PyTuple t => append_each 0 t fs
  | _ => slot_append fs 0 f
  end = append_each 0 (values f) fs.
Proof.
  destruct f; try reflexivity;
    cbn [values append_each]; change (Z.of_nat 0) with 0%Z;
    match goal with |- ?x = _ => destruct x; reflexivity end.
Qed.

(** *** One successful record *)

Lemma accumulate_unfold lo f l :
  accumulate cfg lo f l =
  match append_each 0 (values f)
          (match features lo with
           | None => repeat [] (num_features cfg f)
           | Some fs => fs
           end) with
  | Raise e => Raise e
  | Ok fs =>
      match match labels cfg with
            | Some _ => slot_append fs (Z.of_nat (length fs) - 1) l
            | None => Ok fs
            end with
      | Raise e => Raise e
      | Ok fs' => Ok {| features := Some fs';
                        fail_count := fail_count lo;
                        success_count := S (success_count lo) |}
      end
  end.
Proof. unfold accumulate. rewrite feature_append_values. reflexivity. Qed.

Lemma accumulate_counts lo f l lo' :
  accumulate cfg lo f l = Ok lo' ->
  success_count lo' = S (success_count lo) /\ fail_count lo' = fail_count lo.
Proof.
  rewrite accumulate_unfold.
  destruct (append_each _ _ _) as [fs|e]; [|discriminate].
  destruct (match labels cfg with Some _ => _ | None => _ end) as [fs'|e];
    [|discriminate].
  intros H. injection H as <-. split; reflexivity.
Qed.

Lemma accumulate_slots lo f l lo' :
  accumulate cfg lo f l = Ok lo' ->
  exists fs', features lo' = Some fs' /\
    length fs' = match features lo with
                 | None => num_features cfg f
                 | Some fs => length fs
                 end.
Proof.
  rewrite accumulate_unfold.
  destruct (append_each _ _ _) as [fs1|e] eqn:H1; [|discriminate].
  destruct (match labels cfg with Some _ => _ | None => _ end) as [fs2|e] eqn:H2;
    [|discriminate].
  intros H. injection H as <-. exists fs2. split; [reflexivity|].
  apply append_each_length in H1.
  assert (length fs2 = length fs1) as ->.
  { destruct (labels cfg); [eapply slot_append_length; exact H2|congruence]. }
  rewrite H1. destruct (features lo); [reflexivity | apply repeat_length].
Qed.

Lemma num_features_arity f :
  num_features cfg f = arity f + match labels cfg with Some _ => 1 | None => 0 end.
Proof.
  unfold num_features, arity, values.
  destruct (labels cfg); destruct f; simpl; lia.
Qed.

(** The first successful record: one slot per value, each holding that
    value, and after them the label slot when labels are configured. *)
Lemma accumulate_first lo f l :
  features lo = None ->
  accumulate cfg lo f l =
  Ok {| features := Some (map (fun v => [v]) (values f)
                          ++ match labels cfg with
                             | Some _ => [[l]]
                             | None => []
                             end);
        fail_count := fail_count lo;
        success_count := S (success_count lo) |}.
Proof.
  intros Hnone. rewrite accumulate_unfold, Hnone, num_features_arity.
  unfold arity.
  set (k := match labels cfg with Some _ => 1 | None => 0 end).
  rewrite repeat_app.
  pose proof (append_each_zip (values f) [] (repeat [] (length (values f)))
                (repeat [] k) (repeat_length _ _)) as Hz.
  simpl in Hz. rewrite Hz. clear Hz.
  assert (Hmap : zip_with (fun (slot : list pyobj) v => slot ++ [v])
            (repeat [] (length (values f))) (values f)
          = map (fun v => [v]) (values f)).
  { induction (values f) as [|v vs IH]; [reflexivity|]. simpl. rewrite IH. reflexivity. }
  rewrite Hmap. subst k.
  destruct (labels cfg).
  - simpl repeat. rewrite (slot_append_last _ [] l). reflexivity.
  - simpl. rewrite app_nil_r. reflexivity.
Qed.

(** With labels configured, the label goes to the end of the last slot. *)
Lemma accumulate_label_last lo f l lo' :
  labels cfg <> None ->
  accumulate cfg lo f l = Ok lo' ->
  exists fs' slot, features lo' = Some fs' /\ last fs' = Some (slot ++ [l]).
Proof.
  intros Hlab. rewrite accumulate_unfold.
  destruct (append_each _ _ _) as [fs1|e] eqn:H1; [|discriminate].
  destruct (labels cfg) as [cs|]; [|congruence].
  destruct fs1 as [|s0 fs1] using rev_ind.
  - unfold slot_append. simpl. discriminate.
  - rewrite slot_append_last. intros H. injection H as <-.
    exists (fs1 ++ [s0 ++ [l]]), s0. split; [reflexivity | apply last_snoc].
Qed.

(** *** One row *)

Lemma ready_retained std s : ready s -> ready (retained std s).
Proof.
  unfold ready, retained. intros H Hr. specialize (H Hr). simpl.
  rewrite Hr. destruct (smiles s); [discriminate | congruence].
Qed.

Lemma ready_same_smiles s s' : smiles s' = smiles s -> ready s -> ready s'.
Proof. unfold ready. intros E H Hr. rewrite E. exact (H Hr). Qed.

Lemma body_spec lo row s :
  ready s ->
  match outcome row with
  | Some (std, f, l) => body lo row s = (accumulate cfg lo f l, retained std s)
  | None =>
      (exists s', body lo row s = (Ok (failed lo), s') /\ smiles s' = smiles s)
      \/ (exists e, body lo row s = (Raise e, s) /\ is_Exception e = false)
  end.
Proof.
  intros Hready. pose proof (try_statement_spec lo row s Hready) as T.
  unfold loop_body, bind. cbv zeta.
  destruct (outcome row) as [[[std f] l]|].
  - rewrite T. reflexivity.
  - destruct T as [[s' [T E]]|[e [T E]]]; rewrite T; [left|right]; eauto.
Qed.

Lemma body_completes lo row s lo1 s1 :
  ready s ->
  body lo row s = (Ok lo1, s1) ->
  ready s1 /\
  match outcome row with
  | Some (std, f, l) => accumulate cfg lo f l = Ok lo1 /\ s1 = retained std s
  | None => lo1 = failed lo /\ smiles s1 = smiles s
  end.
Proof.
  intros Hready H. pose proof (body_spec lo row s Hready) as B.
  destruct (outcome row) as [[[std f] l]|].
  - rewrite B in H. injection H as H1 H2. subst s1.
    split; [apply ready_retained; exact Hready | split; [exact H1 | reflexivity]].
  - destruct B as [[s' [B E]]|[e [B E]]]; rewrite B in H; [|discriminate].
    injection H as H1 H2. subst. split; [|split; [reflexivity | exact E]].
    eapply ready_same_smiles; eassumption.
Qed.

(** *** The whole loop *)

Lemma loop_cons row rs lo s lo' s' :
  loop (row :: rs) lo s = (Ok lo', s') ->
  exists lo1 s1, body lo row s = (Ok lo1, s1) /\ loop rs lo1 s1 = (Ok lo', s').
Proof.
  unfold parse_rows. cbn [for_rows]. unfold bind at 1.
  destruct (body lo row s) as [[lo1|e] s1]; [|discriminate].
  intros H. exists lo1, s1. split; [reflexivity | exact H].
Qed.

Lemma loop_app pre post : forall lo s,
  loop (pre ++ post) lo s =
  match loop pre lo s with
  | (Ok lo1, s1) => loop post lo1 s1
  | (Raise e, s1) => (Raise e, s1)
  end.
Proof.
  unfold parse_rows.
  induction pre as [|row pre IH]; intros lo s; [reflexivity|].
  cbn [app for_rows]. unfold bind.
  destruct (body lo row s) as [[lo1|e] s1]; [apply IH | reflexivity].
Qed.

Lemma outcomes_cons row rs :
  outcomes cfg retain_smiles prepare_smiles_and_mol get_input_features
    smiles_index labels_index (row :: rs)
  = match outcome row with
    | Some o => o :: outcomes cfg retain_smiles prepare_smiles_and_mol
                       get_input_features smiles_index labels_index rs
    | None => outcomes cfg retain_smiles prepare_smiles_and_mol
                get_input_features smiles_index labels_index rs
    end.
Proof. reflexivity. Qed.

(** *** Counters *)

Lemma try_block_continue lo sv rl s lo0 s1 :
  try_block cfg retain_smiles prepare_smiles_and_mol get_input_features
    lo sv rl s = (Ok (Continue lo0), s1) ->
  lo0 = failed lo.
Proof.
  unfold try_block, bind, call, pure.
  destruct (MolFromSmiles sv) as [[m|]|e];
    [| intros H; inversion H; reflexivity | discriminate].
  destruct (prepare_smiles_and_mol m) as [[std m']|e]; [|discriminate].
  destruct (get_input_features m') as [f|e]; [|discriminate].
  destruct (postprocess_label cfg) as [pl|].
  - destruct (pl rl) as [l|e]; [|discriminate].
    intros H. exfalso. revert H.
    destruct retain_smiles; [|discriminate].
    destruct (MolToSmiles m') as [c|e]; [|discriminate].
    destruct (String.eqb std c); unfold smiles_append, raise;
      [destruct (smiles s)|]; discriminate.
  - intros H. exfalso. revert H.
    destruct retain_smiles; [|discriminate].
    destruct (MolToSmiles m') as [c|e]; [|discriminate].
    destruct (String.eqb std c); unfold smiles_append, raise;
      [destruct (smiles s)|]; discriminate.
Qed.

Lemma try_continue lo row s lo0 s1 :
  try_statement lo row s = (Ok (Continue lo0), s1) -> lo0 = failed lo.
Proof.
  unfold try_except.
  destruct (try_block _ _ _ _ _ _ _ s) as [[fl|e] s0] eqn:T.
  - intros H. injection H as -> ->. eapply try_block_continue. exact T.
  - unfold except_clauses.
    destruct (is_MolFeatureExtractionError e).
    + unfold pure. intros H. inversion H. reflexivity.
    + destruct (is_Exception e); [|discriminate].
      unfold bind, log, pure. intros H. inversion H. reflexivity.
Qed.

Lemma body_counts lo row s lo1 s1 :
  body lo row s = (Ok lo1, s1) ->
  success_count lo1 + fail_count lo1 = S (success_count lo + fail_count lo).
Proof.
  unfold loop_body, bind. cbv zeta.
  destruct (try_statement lo row s) as [[[lo0|f l]|e] s0] eqn:T; [| |discriminate].
  - apply try_continue in T. subst lo0. unfold pure.
    intros H. injection H as <- _. simpl. lia.
  - unfold call. intros H. injection H as H _.
    apply accumulate_counts in H. lia.
Qed.

Lemma loop_counts rs : forall lo s lo' s',
  loop rs lo s = (Ok lo', s') ->
  success_count lo' + fail_count lo'
  = success_count lo + fail_count lo + length rs.
Proof.
  induction rs as [|row rs IH]; intros lo s lo' s' H.
  - unfold parse_rows, for_rows, pure in H. injection H as <- _. simpl. lia.
  - apply loop_cons in H as (lo1 & s1 & Hb & Hl).
    apply body_counts in Hb. apply IH in Hl. simpl. lia.
Qed.

(** C3. Every row the loop has gone through is counted once, as a success
    or as a failure: whenever the loop has completed a prefix [pre] of the
    table's rows, success_count + fail_count is the length of that prefix,
    hence at most total_count, and it is total_count once the prefix is the
    whole table. *)
Theorem counts_add_up (df : DataFrame) pre post lo s s' :
  rows df = pre ++ post ->
  loop pre initial_locals s = (Ok lo, s') ->
  success_count lo + fail_count lo = length pre /\
  fail_count lo + success_count lo <= length (rows df) /\
  (post = [] -> success_count lo + fail_count lo = length (rows df)).
Proof.
  intros Hrows H. apply loop_counts in H. simpl in H.
  rewrite Hrows, length_app.
  split; [exact H|]. split; [lia|].
  intros ->. simpl. lia.
Qed.

(** *** Rows that fail *)

(** C6. A row whose identifier does not parse into a molecule, or whose
    preparation or feature extraction raises MolFeatureExtractionError, is
    skipped: the loop goes on with fail_count one higher, success_count and
    the feature and label accumulators as they were, and with the parser
    itself untouched, that is nothing appended to the retained identifiers
    and nothing logged. *)
Theorem expected_failure_skipped lo row s :
  expected_failure row ->
  exists lo', body lo row s = (Ok lo', s) /\
    fail_count lo' = S (fail_count lo) /\
    success_count lo' = success_count lo /\
    features lo' = features lo.
Proof.
  intros Hrow. exists (failed lo).
  split; [|split; [|split]; reflexivity].
  unfold loop_body, try_except, try_block, bind, call, pure. cbv zeta.
  destruct Hrow as [H0 | m e H0 H1 He | m std m' e H0 H1 H2 He]; rewrite H0.
  - reflexivity.
  - rewrite H1. unfold except_clauses. rewrite He. reflexivity.
  - rewrite H1, H2. unfold except_clauses. rewrite He. reflexivity.
Qed.

(** C2, as the code has it. With retention asked for, a row whose molecule
    parses, is prepared and featurized, but whose re-serialized SMILES
    differs from the standardized string, fails its assertion inside the
    [try]: the generic handler logs a warning and the trace, the row counts
    as a failure, nothing is appended to the retained list or to the
    accumulators, and the loop goes on. *)
Theorem assertion_failure_is_row_failure lo row s m std m' f l c :
  retain_smiles = true ->
  MolFromSmiles (row_get row smiles_index) = Ok (Some m) ->
  prepare_smiles_and_mol m = Ok (std, m') ->
  get_input_features m' = Ok f ->
  match postprocess_label cfg with
  | Some post => post (PyList (map (row_get row) labels_index))
  | None => Ok (PyList (map (row_get row) labels_index))
  end = Ok l ->
  MolToSmiles m' = Ok c ->
  std <> c ->
  body lo row s = (Ok (failed lo), assertion_logged s) /\
  fail_count (failed lo) = S (fail_count lo) /\
  success_count (failed lo) = success_count lo /\
  features (failed lo) = features lo /\
  smiles (assertion_logged s) = smiles s.
Proof.
  intros Hr H0 H1 H2 H3 H4 Hne.
  split; [|repeat split].
  unfold loop_body, try_except, try_block, bind, call, pure. cbv zeta.
  rewrite H0, H1, H2, Hr, H4.
  apply String.eqb_neq in Hne. rewrite Hne.
  destruct (postprocess_label cfg) as [post|];
    [rewrite H3 | injection H3 as <-];
    unfold raise, except_clauses, bind, log, pure, assertion_logged; simpl;
    rewrite <- app_assoc; reflexivity.
Qed.

(** *** Ragged slots *)

Lemma object_array_items feature :
  object_array feature = NdArray ObjectDtype feature.
Proof. unfold object_array. rewrite firstn_all. reflexivity. Qed.

(** C7. A slot that numpy.asarray rejects with a ValueError, as it does for
    values of inconsistent inner shapes, becomes an object-typed array of
    the same outer length whose elements are the accumulated values
    themselves, and the conversion goes on with the next slot. *)
Theorem ragged_slot_becomes_object_array feature e rest ret :
  asarray_error feature = Some e ->
  is_ValueError e = true ->
  exists a, to_array feature = Ok a /\
    array_dtype a = ObjectDtype /\
    array_len a = length feature /\
    array_items a = feature /\
    to_arrays (feature :: rest) ret = to_arrays rest (ret ++ [a]).
Proof.
  intros Herr Hv. exists (NdArray ObjectDtype feature).
  assert (Ha : to_array feature = Ok (NdArray ObjectDtype feature)).
  { unfold to_array, numpy_asarray. rewrite Herr, Hv, object_array_items.
    reflexivity. }
  repeat split; try exact Ha.
  cbn [to_arrays]. rewrite Ha. reflexivity.
Qed.

(** *** Successes, in row order *)

Lemma loop_successes rs : forall lo s lo' s',
  ready s ->
  loop rs lo s = (Ok lo', s') ->
  ready s' /\
  success_count lo' = success_count lo + length (outs rs) /\
  smiles s' = if retain_smiles
              then option_map
                     (fun kept => kept ++ map (fun o => fst (fst o)) (outs rs))
                     (smiles s)
              else smiles s.
Proof.
  induction rs as [|row rs IH]; intros lo s lo' s' Hready H.
  - unfold parse_rows, for_rows, pure in H. injection H as <- <-.
    split; [exact Hready|]. split; [simpl; lia|].
    simpl. destruct retain_smiles; [|reflexivity].
    destruct (smiles s); [|reflexivity]. simpl. rewrite app_nil_r. reflexivity.
  - apply loop_cons in H as (lo1 & s1 & Hb & Hl).
    apply body_completes in Hb as [Hready1 Hb]; [|exact Hready].
    specialize (IH _ _ _ _ Hready1 Hl) as (Hr' & Hc & Hs).
    split; [exact Hr'|].
    rewrite outcomes_cons.
    destruct (outcome row) as [[[std f] l]|].
    + destruct Hb as [Hacc ->]. apply accumulate_counts in Hacc as [Hacc _].
      split; [simpl; lia|].
      rewrite Hs. unfold retained. simpl.
      destruct retain_smiles; [|reflexivity].
      destruct (smiles s); [|reflexivity]. simpl.
      rewrite <- app_assoc. reflexivity.
    + destruct Hb as [-> Hsm]. split; [exact Hc|].
      rewrite Hs, Hsm. reflexivity.
Qed.

(** *** The slots *)

Lemma loop_slots rs : forall lo s lo' s',
  ready s ->
  loop rs lo s = (Ok lo', s') ->
  match outs rs with
  | [] => features lo' = features lo
  | o :: _ =>
      exists fs', features lo' = Some fs' /\
        length fs' = match features lo with
                     | None => num_features cfg (snd (fst o))
                     | Some fs => length fs
                     end
  end.
Proof.
  induction rs as [|row rs IH]; intros lo s lo' s' Hready H.
  - unfold parse_rows, for_rows, pure in H. injection H as <- <-. reflexivity.
  - apply loop_cons in H as (lo1 & s1 & Hb & Hl).
    apply body_completes in Hb as [Hready1 Hb]; [|exact Hready].
    specialize (IH _ _ _ _ Hready1 Hl).
    rewrite outcomes_cons.
    destruct (outcome row) as [[[std f] l]|].
    + destruct Hb as [Hacc _].
      apply accumulate_slots in Hacc as (fs1 & Hf1 & Hlen1). simpl.
      rewrite Hf1 in IH.
      destruct (outs rs) as [|o os].
      * exists fs1. split; [congruence | exact Hlen1].
      * destruct IH as (fs' & Hf' & Hlen'). exists fs'.
        split; [exact Hf' | congruence].
    + destruct Hb as [-> _]. exact IH.
Qed.

Lemma loop_label_last rs : forall lo s lo' s' o,
  ready s ->
  labels cfg <> None ->
  loop rs lo s = (Ok lo', s') ->
  last (outs rs) = Some o ->
  exists fs' slot, features lo' = Some fs' /\ last fs' = Some (slot ++ [snd o]).
Proof.
  induction rs as [|row rs IH]; intros lo s lo' s' o Hready Hlab H Hlast.
  - discriminate.
  - apply loop_cons in H as (lo1 & s1 & Hb & Hl).
    apply body_completes in Hb as [Hready1 Hb]; [|exact Hready].
    rewrite outcomes_cons in Hlast.
    destruct (outcome row) as [[[std f] l]|].
    + destruct Hb as [Hacc _].
      destruct (outs rs) as [|o1 os] eqn:Hos.
      * injection Hlast as <-.
        pose proof (loop_slots rs _ _ _ _ Hready1 Hl) as Hsl.
        rewrite Hos in Hsl. rewrite Hsl.
        eapply accumulate_label_last; eassumption.
      * rewrite last_cons_cons in Hlast.
        eapply IH; eauto.
    + destruct Hb as [-> _]. eapply IH; eauto.
Qed.

(** C8. The slots are made at the first successful record of the table and
    by it: before it there are none; after the loop there are as many as
    that record's tuple has values, or one if its feature output is not a
    tuple, plus one if labels are configured; and with labels configured the
    last slot is the label slot, ending in the labels of the last success. *)
Theorem slots_fixed_by_first_success rs lo s s' :
  ready s ->
  loop rs initial_locals s = (Ok lo, s') ->
  match outs rs with
  | [] => features lo = None
  | (_, input_features, _) :: _ =>
      exists fs, features lo = Some fs /\
        length fs = match input_features with
                    | PyTuple t => length t
                    | _ => 1
                    end
                    + match labels cfg with Some _ => 1 | None => 0 end /\
        (labels cfg <> None ->
         exists slot o, last (outs rs) = Some o /\
                        last fs = Some (slot ++ [snd o]))
  end.
Proof.
  intros Hready H.
  pose proof (loop_slots rs _ _ _ _ Hready H) as Hsl.
  destruct (outs rs) as [|[[std f] l] os] eqn:Hos; [exact Hsl|].
  destruct Hsl as (fs & Hf & Hlen). exists fs.
  split; [exact Hf|]. split.
  - rewrite Hlen. simpl. unfold num_features.
    destruct (labels cfg); destruct f; simpl; lia.
  - intros Hlab.
    destruct (last ((std, f, l) :: os)) as [o|] eqn:Hlast.
    2: { apply last_None in Hlast. discriminate. }
    rewrite <- Hos in Hlast.
    destruct (loop_label_last rs _ _ _ _ o Hready Hlab H Hlast)
      as (fs' & slot & Hf' & Hl').
    exists slot, o. split; congruence.
Qed.

(** *** A record with too many values *)

Lemma accumulate_overflow lo fs t l :
  features lo = Some fs ->
  length fs < length t ->
  accumulate cfg lo (PyTuple t) l
  = Raise (Exn IndexError [PyStr "list index out of range"]).
Proof.
  intros Hf Hlt. rewrite accumulate_unfold, Hf. simpl values.
  rewrite append_each_overflow; [reflexivity | lia | lia].
Qed.

Lemma loop_no_success rs : forall lo s,
  ready s ->
  outs rs = [] ->
  (exists lo' s', loop rs lo s = (Ok lo', s') /\ features lo' = features lo)
  \/ (exists e s', loop rs lo s = (Raise e, s') /\ is_Exception e = false).
Proof.
  induction rs as [|row rs IH]; intros lo s Hready Hos.
  - left. exists lo, s. split; reflexivity.
  - rewrite outcomes_cons in Hos.
    pose proof (body_spec lo row s Hready) as B.
    destruct (outcome row) as [o|]; [discriminate|].
    unfold parse_rows. cbn [for_rows]. unfold bind.
    destruct B as [(s1 & B & Hsm) | (e & B & He)]; rewrite B.
    + apply ready_same_smiles with (s' := s1) in Hready; [|exact Hsm].
      destruct (IH (failed lo) s1 Hready Hos)
        as [(lo' & s' & Hl & Hf) | (e & s' & Hl & He)].
      * left. exists lo', s'. split; [exact Hl | exact Hf].
      * right. exists e, s'. split; [exact Hl | exact He].
    + right. exists e, s. split; [reflexivity | exact He].
Qed.

(** *** Aligned slots *)

Lemma zip_append_lengths (c : nat) : forall (mid : list (list pyobj)) vals,
  length mid = length vals ->
  Forall (fun slot => length slot = c) mid ->
  Forall (fun slot => length slot = S c)
    (zip_with (fun slot v => slot ++ [v]) mid vals).
Proof.
  induction mid as [|slot mid IH]; intros [|v vals] Hlen HF;
    simpl in *; try discriminate; [constructor|].
  inversion HF as [|? ? Hslot HF']; subst.
  constructor; [rewrite length_app; simpl; lia|].
  apply IH; [lia | exact HF'].
Qed.

Lemma split_slots (fs : list (list pyobj)) n k :
  length fs = n + k ->
  exists mid post, fs = mid ++ post /\ length mid = n /\ length post = k.
Proof.
  intros Hlen. exists (take n fs), (drop n fs).
  split; [symmetry; apply take_drop|].
  split; [apply length_take_le; lia | rewrite length_drop; lia].
Qed.

Lemma accumulate_aligned lo fs f l c :
  features lo = Some fs ->
  length fs = arity f + match labels cfg with Some _ => 1 | None => 0 end ->
  Forall (fun slot => length slot = c) fs ->
  exists fs',
    accumulate cfg lo f l
    = Ok {| features := Some fs';
            fail_count := fail_count lo;
            success_count := S (success_count lo) |} /\
    length fs' = length fs /\
    Forall (fun slot => length slot = S c) fs' /\
    (labels cfg <> None ->
     forall done, last fs = Some done -> last fs' = Some (done ++ [l])).
Proof.
  intros Hf Hlen HF. rewrite accumulate_unfold, Hf.
  destruct (split_slots fs _ _ Hlen) as (mid & post & -> & Hmid & Hpost).
  apply Forall_app in HF as [HFmid HFpost].
  pose proof (append_each_zip (values f) [] mid post Hmid) as Hz.
  simpl in Hz. rewrite Hz. clear Hz.
  pose proof (zip_append_lengths c mid (values f) Hmid HFmid) as HFzip.
  assert (Hzlen : length (zip_with (fun (slot : list pyobj) v => slot ++ [v])
                            mid (values f)) = length mid).
  { rewrite length_zip_with. unfold arity in Hmid. lia. }
  destruct (labels cfg) as [cs|].
  - destruct post as [|slot [|? ?]]; simpl in Hpost; try lia.
    rewrite slot_append_last.
    eexists. split; [reflexivity|].
    split; [rewrite !length_app; simpl; lia|].
    split.
    + apply Forall_app. split; [exact HFzip|].
      inversion HFpost; subst. constructor; [|constructor].
      rewrite length_app. simpl. lia.
    + intros _ done Hlast. rewrite last_snoc in Hlast. injection Hlast as <-.
      apply last_snoc.
  - destruct post; simpl in Hpost; [|lia].
    eexists. split; [reflexivity|].
    split; [rewrite !length_app; simpl; lia|].
    split; [rewrite app_nil_r; exact HFzip | congruence].
Qed.

Lemma loop_aligned rs : forall lo s lo' s' fs n done,
  ready s ->
  loop rs lo s = (Ok lo', s') ->
  features lo = Some fs ->
  length fs = n + match labels cfg with Some _ => 1 | None => 0 end ->
  Forall (fun slot => length slot = success_count lo) fs ->
  (labels cfg <> None -> last fs = Some done) ->
  Forall (fun o => arity (snd (fst o)) = n) (outs rs) ->
  exists fs', features lo' = Some fs' /\
    Forall (fun slot => length slot = success_count lo') fs' /\
    (labels cfg <> None -> last fs' = Some (done ++ map snd (outs rs))).
Proof.
  induction rs as [|row rs IH];
    intros lo s lo' s' fs n done Hready H Hf Hlen HF Hlast Har.
  - unfold parse_rows, for_rows, pure in H. injection H as <- <-.
    exists fs. split; [exact Hf|]. split; [exact HF|].
    simpl. rewrite app_nil_r. exact Hlast.
  - apply loop_cons in H as (lo1 & s1 & Hb & Hl).
    apply body_completes in Hb as [Hready1 Hb]; [|exact Hready].
    rewrite outcomes_cons in Har |- *.
    destruct (outcome row) as [[[std f] l]|].
    + destruct Hb as [Hacc _].
      inversion Har as [|? ? Hf_n Har']; subst. cbn [fst snd] in *.
      destruct (accumulate_aligned lo fs f l (success_count lo) Hf Hlen HF)
        as (fs1 & Hacc1 & Hlen1 & HF1 & Hlast1).
      rewrite Hacc1 in Hacc. injection Hacc as <-.
      assert (Hlen1' : length fs1 = arity f
                + match labels cfg with Some _ => 1 | None => 0 end)
        by congruence.
      assert (Hlast1' : labels cfg <> None -> last fs1 = Some (done ++ [l])).
      { intros Hlab. apply Hlast1; [exact Hlab | apply Hlast; exact Hlab]. }
      destruct (IH _ _ _ _ fs1 (arity f) (done ++ [l]) Hready1 Hl eq_refl
                  Hlen1' HF1 Hlast1' Har')
        as (fs' & Hf' & HF' & Hlast').
      exists fs'. split; [exact Hf'|]. split; [exact HF'|].
      intros Hlab. rewrite (Hlast' Hlab). simpl.
      rewrite <- app_assoc. reflexivity.
    + destruct Hb as [-> _].
      eapply IH; eauto.
Qed.

Lemma loop_from_none rs : forall lo s lo' s',
  ready s ->
  loop rs lo s = (Ok lo', s') ->
  features lo = None ->
  success_count lo = 0 ->
  same_arity (outs rs) ->
  match outs rs with
  | [] => features lo' = None
  | _ :: _ =>
      exists fs', features lo' = Some fs' /\
        Forall (fun slot => length slot = success_count lo') fs' /\
        (labels cfg <> None -> last fs' = Some (map snd (outs rs)))
  end.
Proof.
  induction rs as [|row rs IH]; intros lo s lo' s' Hready H Hf Hc Har.
  - unfold parse_rows, for_rows, pure in H. injection H as <- <-. exact Hf.
  - apply loop_cons in H as (lo1 & s1 & Hb & Hl).
    apply body_completes in Hb as [Hready1 Hb]; [|exact Hready].
    rewrite outcomes_cons in Har |- *.
    destruct (outcome row) as [[[std f] l]|].
    + destruct Hb as [Hacc _]. rewrite (accumulate_first lo f l Hf) in Hacc.
      injection Hacc as <-. simpl in Har.
      destruct (loop_aligned rs _ _ _ _ _ (arity f) [l] Hready1 Hl eq_refl)
        as (fs' & Hf' & HF' & Hlast').
      * rewrite length_app, length_map. unfold arity.
        destruct (labels cfg); reflexivity.
      * simpl. rewrite Hc. apply Forall_app. split.
        -- clear. induction (values f); constructor; [reflexivity | assumption].
        -- destruct (labels cfg); repeat constructor.
      * intros Hlab. destruct (labels cfg); [apply last_snoc | congruence].
      * exact Har.
      * exists fs'. split; [exact Hf'|]. split; [exact HF' | exact Hlast'].
    + destruct Hb as [-> _]. apply (IH _ _ _ _ Hready1 Hl Hf Hc Har).
Qed.

(** *** Arrays *)

Lemma to_array_items feature a :
  to_array feature = Ok a -> array_items a = feature.
Proof.
  unfold to_array, numpy_asarray.
  destruct (asarray_error feature) as [e|].
  - destruct (is_ValueError e); [|discriminate].
    rewrite object_array_items. intros H. injection H as <-. reflexivity.
  - intros H. injection H as <-. reflexivity.
Qed.

Lemma to_arrays_items fs : forall ret arrs,
  to_arrays fs ret = Ok arrs ->
  exists made, arrs = ret ++ made /\
    Forall2 (fun feature a => array_items a = feature) fs made.
Proof.
  induction fs as [|feature fs IH]; intros ret arrs H; simpl in H.
  - injection H as <-. exists []. split; [symmetry; apply app_nil_r | constructor].
  - destruct (to_array feature) as [a|e] eqn:Ha; [|discriminate].
    apply IH in H as (made & -> & HF).
    exists (a :: made). split; [rewrite <- app_assoc; reflexivity|].
    constructor; [eapply to_array_items; exact Ha | exact HF].
Qed.

Lemma last_related {A B} (P : A -> B -> Prop) l1 l2 x :
  Forall2 P l1 l2 -> last l1 = Some x -> exists y, last l2 = Some y /\ P x y.
Proof.
  induction 1 as [|a b l1 l2 Hab HF IH]; [discriminate|].
  destruct HF as [|a' b' l1 l2 Hab' HF].
  - intros H. injection H as <-. exists b. split; [reflexivity | exact Hab].
  - rewrite !last_cons_cons. exact IH.
Qed.

Lemma outcome_canonical row std f l :
  retain_smiles = true ->
  outcome row = Some (std, f, l) ->
  exists m m',
    MolFromSmiles (row_get row smiles_index) = Ok (Some m) /\
    prepare_smiles_and_mol m = Ok (std, m') /\
    MolToSmiles m' = Ok std.
Proof.
  intros Hr. unfold row_outcome. rewrite Hr.
  destruct (MolFromSmiles (row_get row smiles_index)) as [[m|]|e];
    try discriminate.
  destruct (prepare_smiles_and_mol m) as [[std' m']|e] eqn:Hp; [|discriminate].
  destruct (get_input_features m') as [f'|e]; [|discriminate].
  destruct (match postprocess_label cfg with Some _ => _ | None => _ end)
    as [l'|e]; [|discriminate].
  destruct (MolToSmiles m') as [c|e] eqn:Hc; [|discriminate].
  destruct (String.eqb std' c) eqn:Heq; [|discriminate].
  intros H. injection H as <- <- <-.
  apply String.eqb_eq in Heq. subst c.
  exists m, m'. split; [reflexivity|]. split; [exact Hp | exact Hc].
Qed.

Lemma outcomes_canonical rs :
  retain_smiles = true ->
  Forall (fun c => exists row m m',
            In row rs /\
            MolFromSmiles (row_get row smiles_index) = Ok (Some m) /\
            prepare_smiles_and_mol m = Ok (c, m') /\
            MolToSmiles m' = Ok c)
    (map (fun o => fst (fst o)) (outs rs)).
Proof.
  intros Hr. induction rs as [|row rs IH]; [constructor|].
  rewrite outcomes_cons.
  assert (IH' : Forall (fun c => exists row0 m m',
            In row0 (row :: rs) /\
            MolFromSmiles (row_get row0 smiles_index) = Ok (Some m) /\
            prepare_smiles_and_mol m = Ok (c, m') /\
            MolToSmiles m' = Ok c)
    (map (fun o => fst (fst o)) (outs rs))).
  { eapply Forall_impl; [exact IH|]. intros c (row0 & m & m' & Hin & H).
    exists row0, m, m'. split; [right; exact Hin | exact H]. }
  destruct (outcome row) as [[[std f] l]|] eqn:Ho; [|exact IH'].
  simpl. constructor; [|exact IH'].
  destruct (outcome_canonical row std f l Hr Ho) as (m & m' & H).
  exists row, m, m'. split; [left; reflexivity | exact H].
Qed.

End Facts.

Section Calls.

Context {tk : Toolkit}.
Variable cfg : parser_config.
Variable retain_smiles : bool.
Variable prepare_smiles_and_mol : mol -> result (string * mol).
Variable get_input_features : mol -> result pyobj.
Variable filepath : string.
Variable df : DataFrame.
Variable smiles_index : nat.
Variable labels_index : list nat.

Hypothesis mol_preprocessor :
  preprocessor cfg = MolPreprocessor prepare_smiles_and_mol get_input_features.
Hypothesis csv_read : read_csv filepath = Ok df.
Hypothesis smiles_located : get_loc df (smiles_col cfg) = Ok smiles_index.
Hypothesis labels_located : labels_locs cfg df = Ok labels_index.

Abbreviation the_loop := (parse_rows cfg retain_smiles prepare_smiles_and_mol
                            get_input_features smiles_index labels_index).
Abbreviation successes := (outcomes cfg retain_smiles prepare_smiles_and_mol
                             get_input_features smiles_index labels_index).

Lemma ready_started s : ready retain_smiles (started retain_smiles s).
Proof.
  unfold ready, started. intros ->. discriminate.
Qed.

Lemma package_state res s : snd (package cfg res s) = s.
Proof.
  unfold package, bind, call.
  destruct res as [arrays|a]; destruct (postprocess_fn cfg) as [f|];
    try reflexivity.
  - destruct (f (map ResArray arrays)) as [res'|e]; [|reflexivity].
    destruct (star res'); reflexivity.
  - destruct (f [ResArray a]); reflexivity.
Qed.

Lemma parse_frame_unfold s :
  parse_frame cfg retain_smiles prepare_smiles_and_mol get_input_features df s
  = match the_loop (rows df) initial_locals s with
    | (Ok lo, s1) =>
        match convert (features lo) with
        | Ok ret => (Ok (ResTuple ret), summarized (length (rows df)) lo s1)
        | Raise e => (Raise e, s1)
        end
    | (Raise e, s1) => (Raise e, s1)
    end.
Proof.
  unfold parse_frame, bind, call. rewrite smiles_located, labels_located.
  destruct (the_loop (rows df) initial_locals s) as [[lo|e] s1]; [|reflexivity].
  destruct (convert (features lo)); reflexivity.
Qed.

Lemma parse_unfold s :
  parse cfg filepath retain_smiles s
  = match parse_frame cfg retain_smiles prepare_smiles_and_mol
            get_input_features df (started retain_smiles s) with
    | (Ok res, s1) => package cfg res s1
    | (Raise e, s1) => (Raise e, s1)
    end.
Proof.
  unfold parse, bind. rewrite mol_preprocessor.
  unfold read_table, try_except, call, bind. rewrite csv_read.
  unfold started, reset_smiles, pure.
  destruct retain_smiles; reflexivity.
Qed.

(** A parse that returns has gone through the loop and the conversion. *)
Lemma parse_returns s d s' :
  parse cfg filepath retain_smiles s = (Ok d, s') ->
  exists lo s1 ret,
    the_loop (rows df) initial_locals (started retain_smiles s) = (Ok lo, s1) /\
    convert (features lo) = Ok ret /\
    s' = summarized (length (rows df)) lo s1 /\
    package cfg (ResTuple ret) s' = (Ok d, s').
Proof.
  rewrite parse_unfold, parse_frame_unfold.
  destruct (the_loop _ _ _) as [[lo|e] s1] eqn:Hl; [|discriminate].
  destruct (convert (features lo)) as [ret|e] eqn:Hc; [|discriminate].
  intros H. exists lo, s1, ret.
  pose proof (package_state (ResTuple ret) (summarized (length (rows df)) lo s1)) as Hp.
  rewrite H in Hp. simpl in Hp. subst s'.
  split; [reflexivity|]. split; [exact Hc|]. split; [reflexivity | exact H].
Qed.

(** Without a single success there is nothing to iterate over: the call
    raises, a TypeError unless a non-Exception error of a row escaped. *)
Lemma no_success_no_dataset s :
  successes (rows df) = [] ->
  exists e s', parse cfg filepath retain_smiles s = (Raise e, s') /\
    (exn_type e = TypeError \/ is_Exception e = false).
Proof.
  intros Hos. rewrite parse_unfold, parse_frame_unfold.
  destruct (loop_no_success cfg retain_smiles prepare_smiles_and_mol
              get_input_features smiles_index labels_index (rows df)
              initial_locals (started retain_smiles s) (ready_started s) Hos)
    as [(lo & s1 & Hl & Hf) | (e & s1 & Hl & He)]; rewrite Hl.
  - rewrite Hf. simpl. eexists _, _. split; [reflexivity | left; reflexivity].
  - exists e, s1. split; [reflexivity | right; exact He].
Qed.

(** C10. Once the first successful record has fixed the number of slots, a
    later record that gets through its [try] statement with a tuple of more
    values than there are slots makes the accumulation raise IndexError.
    This happens after the [try], so that no handler sees it: the row is
    not counted, nothing is logged, and the call to [parse] ends with that
    exception. *)
Theorem arity_overflow_aborts_parse s pre row post lo s1 o0 os std t l :
  rows df = pre ++ row :: post ->
  the_loop pre initial_locals (started retain_smiles s) = (Ok lo, s1) ->
  successes pre = o0 :: os ->
  row_outcome cfg retain_smiles prepare_smiles_and_mol get_input_features
    smiles_index labels_index row = Some (std, PyTuple t, l) ->
  num_features cfg (snd (fst o0)) < length t ->
  exists s2,
    parse cfg filepath retain_smiles s
    = (Raise (Exn IndexError [PyStr "list index out of range"]), s2) /\
    logger s2 = logger s1 /\
    loop_body cfg retain_smiles prepare_smiles_and_mol get_input_features
      smiles_index labels_index lo row s1
    = (Raise (Exn IndexError [PyStr "list index out of range"]), s2).
Proof.
  intros Hrows Hpre Hos Hrow Hlt.
  pose proof (ready_started s) as Hready.
  destruct (loop_successes _ _ _ _ _ _ pre _ _ _ _ Hready Hpre) as (Hready1 & _).
  pose proof (loop_slots _ _ _ _ _ _ pre _ _ _ _ Hready Hpre) as Hsl.
  rewrite Hos in Hsl. destruct Hsl as (fs & Hf & Hlen). simpl in Hlen.
  pose proof (body_spec cfg retain_smiles prepare_smiles_and_mol
                get_input_features smiles_index labels_index lo row s1 Hready1)
    as B.
  rewrite Hrow in B.
  rewrite (accumulate_overflow cfg lo fs t l Hf) in B by lia.
  exists (retained retain_smiles std s1).
  split; [|split; [reflexivity | exact B]].
  rewrite parse_unfold, parse_frame_unfold, Hrows.
  rewrite loop_app, Hpre.
  unfold parse_rows. cbn [for_rows]. unfold bind. rewrite B. reflexivity.
Qed.

(** C4. A call to [parse] with retention that returns leaves in
    [self.smiles] one string per successful record of the table, in row
    order: its length is the success count of the summary line, and each
    entry is the standardized string the preprocessor derived from a row's
    molecule, equal to the SMILES re-serialized from the prepared molecule,
    not the string of the input column. *)
Theorem retained_smiles_are_canonical s d s' :
  retain_smiles = true ->
  parse cfg filepath retain_smiles s = (Ok d, s') ->
  exists fail success kept,
    last (logger s')
    = Some (INFO, PreprocessFinished fail success (length (rows df))) /\
    smiles s' = Some kept /\
    length kept = success /\
    kept = map (fun o => fst (fst o)) (successes (rows df)) /\
    Forall (fun c => exists row m m',
              In row (rows df) /\
              MolFromSmiles (row_get row smiles_index) = Ok (Some m) /\
              prepare_smiles_and_mol m = Ok (c, m') /\
              MolToSmiles m' = Ok c) kept.
Proof.
  intros Hr H.
  apply parse_returns in H as (lo & s1 & ret & Hl & _ & -> & _).
  destruct (loop_successes _ _ _ _ _ _ _ _ _ _ _ (ready_started s) Hl)
    as (_ & Hc & Hs).
  unfold started in Hs. rewrite Hr in Hs. simpl in Hs.
  exists (fail_count lo), (success_count lo),
    (map (fun o => fst (fst o)) (successes (rows df))).
  split; [apply last_snoc|].
  split; [simpl; rewrite Hs, Hr; reflexivity|].
  split; [rewrite length_map, Hc; reflexivity|].
  split; [reflexivity|].
  apply outcomes_canonical. exact Hr.
Qed.

(** C9. With no result post-processing function and every successful
    record of the arity of the first one, a call to [parse] that returns
    has handed NumpyTupleDataset arrays whose leading dimension is the
    success count of the summary line, the number of successful records;
    with labels configured the last of these arrays holds the labels of the
    successful records, in row order. *)
Theorem result_arrays_aligned s d s' :
  postprocess_fn cfg = None ->
  same_arity (successes (rows df)) ->
  parse cfg filepath retain_smiles s = (Ok d, s') ->
  exists ret fail success,
    NumpyTupleDataset (map ResArray ret) = Ok d /\
    last (logger s')
    = Some (INFO, PreprocessFinished fail success (length (rows df))) /\
    success = length (successes (rows df)) /\
    Forall (fun a => array_len a = success) ret /\
    (labels cfg <> None ->
     exists a, last ret = Some a /\
               array_items a = map snd (successes (rows df))).
Proof.
  intros Hpost Har H.
  apply parse_returns in H as (lo & s1 & ret & Hl & Hconv & -> & Hpack).
  unfold package in Hpack. rewrite Hpost in Hpack. unfold call in Hpack.
  injection Hpack as Hd.
  pose proof (ready_started s) as Hready.
  destruct (loop_successes _ _ _ _ _ _ _ _ _ _ _ Hready Hl) as (_ & Hc & _).
  simpl in Hc.
  pose proof (loop_from_none _ _ _ _ _ _ _ _ _ _ _ Hready Hl eq_refl eq_refl Har)
    as Hsl.
  exists ret, (fail_count lo), (success_count lo).
  split; [exact Hd|]. split; [apply last_snoc|]. split; [exact Hc|].
  destruct (successes (rows df)) as [|o os] eqn:Hos.
  { rewrite Hsl in Hconv. discriminate. }
  destruct Hsl as (fs & Hf & HF & Hlast).
  rewrite Hf in Hconv. simpl in Hconv.
  apply to_arrays_items in Hconv as (made & -> & H2). simpl.
  split.
  - clear Hlast Hf Hd. revert HF.
    induction H2; intros HF; [constructor|].
    inversion HF; subst.
    constructor; [unfold array_len; congruence | auto].
  - intros Hlab. specialize (Hlast Hlab).
    destruct (last_related _ _ _ _ H2 Hlast) as (a & Ha & Hitems).
    exists a. split; [exact Ha | exact Hitems].
Qed.

End Calls.

(** ** What a call does to [self.smiles] *)

Section Preservation.

Context {tk : Toolkit}.
Variable cfg : parser_config.
Variable retain_smiles : bool.
Variable P : parser_state -> parser_state -> Prop.

Hypothesis P_refl : forall s, P s s.
Hypothesis P_trans : forall s1 s2 s3, P s1 s2 -> P s2 s3 -> P s1 s3.
Hypothesis P_log : forall lv msg, preserves P (log lv msg).
Hypothesis P_append :
  retain_smiles = true -> forall x, preserves P (smiles_append x).

Lemma preserves_pure {A} (a : A) : preserves P (pure a).
Proof. intros s. apply P_refl. Qed.

Lemma preserves_call {A} (r : result A) : preserves P (call r).
Proof. intros s. apply P_refl. Qed.

Lemma preserves_raise {A} e : preserves P (@raise A e).
Proof. intros s. apply P_refl. Qed.

Lemma preserves_bind {A B} (m : M A) (k : A -> M B) :
  preserves P m -> (forall a, preserves P (k a)) -> preserves P (bind m k).
Proof.
  intros Hm Hk s. unfold bind. specialize (Hm s).
  destruct (m s) as [[a|e] s1]; simpl in *; [|exact Hm].
  eapply P_trans; [exact Hm | apply Hk].
Qed.

Lemma preserves_try_except {A} (body : M A) handler :
  preserves P body ->
  (forall e h, handler e = Some h -> preserves P h) ->
  preserves P (try_except body handler).
Proof.
  intros Hb Hh s. unfold try_except. specialize (Hb s).
  destruct (body s) as [[a|e] s1]; simpl in *; [exact Hb|].
  destruct (handler e) as [h|] eqn:He; [|exact Hb].
  eapply P_trans; [exact Hb | eapply Hh; exact He].
Qed.

Lemma preserves_try_block p g lo sv rl :
  preserves P (try_block cfg retain_smiles p g lo sv rl).
Proof.
  unfold try_block.
  apply preserves_bind; [apply preserves_call|]. intros [m|];
    [|apply preserves_pure].
  apply preserves_bind; [apply preserves_call|]. intros [std m'].
  apply preserves_bind; [apply preserves_call|]. intros f.
  apply preserves_bind.
  { destruct (postprocess_label cfg); [apply preserves_call | apply preserves_pure]. }
  intros l. apply preserves_bind; [|intros; apply preserves_pure].
  destruct retain_smiles eqn:Hr; [|apply preserves_pure].
  apply preserves_bind; [apply preserves_call|]. intros c.
  destruct (String.eqb std c); [apply P_append; reflexivity | apply preserves_raise].
Qed.

Lemma preserves_except_clauses lo e h :
  except_clauses lo e = Some h -> preserves P h.
Proof.
  unfold except_clauses.
  destruct (is_MolFeatureExtractionError e).
  - intros H. injection H as <-. apply preserves_pure.
  - destruct (is_Exception e); [|discriminate].
    intros H. injection H as <-.
    apply preserves_bind; [apply P_log|]. intros _.
    apply preserves_bind; [apply P_log|]. intros _. apply preserves_pure.
Qed.

Lemma preserves_loop_body p g si li lo row :
  preserves P (loop_body cfg retain_smiles p g si li lo row).
Proof.
  unfold loop_body. cbv zeta. apply preserves_bind.
  - apply preserves_try_except; [apply preserves_try_block|].
    apply preserves_except_clauses.
  - intros [lo'|f l]; [apply preserves_pure | apply preserves_call].
Qed.

Lemma preserves_for_rows body rs :
  (forall lo row, preserves P (body lo row)) ->
  forall lo, preserves P (for_rows body rs lo).
Proof.
  intros Hb. induction rs as [|row rs IH]; intros lo; simpl.
  - apply preserves_pure.
  - apply preserves_bind; [apply Hb | exact IH].
Qed.

Lemma preserves_parse_frame p g df :
  preserves P (parse_frame cfg retain_smiles p g df).
Proof.
  unfold parse_frame.
  apply preserves_bind; [apply preserves_call|]. intros si.
  apply preserves_bind; [apply preserves_call|]. intros li.
  apply preserves_bind.
  { apply preserves_for_rows. intros lo row. apply preserves_loop_body. }
  intros lo. apply preserves_bind; [apply preserves_call|]. intros ret.
  apply preserves_bind; [apply P_log|]. intros _. apply preserves_pure.
Qed.

Lemma preserves_package res : preserves P (package cfg res).
Proof.
  unfold package. destruct res as [arrays|a]; destruct (postprocess_fn cfg).
  - apply preserves_bind; [apply preserves_call|]. intros res'.
    apply preserves_bind; [apply preserves_call|]. intros args.
    apply preserves_call.
  - apply preserves_call.
  - apply preserves_bind; [apply preserves_call|]. intros res'.
    apply preserves_call.
  - apply preserves_call.
Qed.

(** From the parser as the first statement of [parse] leaves it to the
    parser the call leaves. *)
Lemma parse_preserves filepath s :
  P (snd ((if retain_smiles then reset_smiles else pure tt) s))
    (snd (parse cfg filepath retain_smiles s)).
Proof.
  unfold parse. unfold bind at 1.
  destruct ((if retain_smiles then reset_smiles else pure tt) s)
    as [[u|e] s0] eqn:Hs0.
  2: { destruct retain_smiles; discriminate. }
  simpl.
  apply (preserves_bind
           (match preprocessor cfg with
            | MolPreprocessor p g =>
                bind (read_table filepath)
                  (fun df => parse_frame cfg retain_smiles p g df)
            | OtherPreprocessor process => call (process filepath)
            end)
           (fun res => package cfg res)).
  - destruct (preprocessor cfg) as [p g|process]; [|apply preserves_call].
    apply preserves_bind; [|intros df; apply preserves_parse_frame].
    unfold read_table. apply preserves_try_except; [apply preserves_call|].
    intros e h. destruct (is_AttributeError e); [|discriminate].
    intros H. injection H as <-. apply preserves_call.
  - intros res. apply preserves_package.
Qed.

End Preservation.

Section Sequences.

Context {tk : Toolkit}.
Variable cfg : parser_config.

Lemma parse_without_retention filepath s :
  smiles (snd (parse cfg filepath false s)) = smiles s.
Proof.
  apply (parse_preserves cfg false (fun s1 s2 => smiles s2 = smiles s1)).
  - reflexivity.
  - intros s1 s2 s3 H12 H23. congruence.
  - intros lv msg s0. reflexivity.
  - discriminate.
Qed.

Lemma parse_with_retention filepath s :
  exists kept, smiles (snd (parse cfg filepath true s)) = Some kept.
Proof.
  pose proof (parse_preserves cfg true
                (fun s1 s2 => smiles s1 <> None -> smiles s2 <> None)) as H.
  simpl in H.
  destruct (smiles (snd (parse cfg filepath true s))) as [kept|] eqn:Hk;
    [exists kept; reflexivity|].
  exfalso. eapply (H ltac:(auto) ltac:(auto)).
  - intros lv msg s0 Hs. exact Hs.
  - intros _ x s0. unfold smiles_append.
    destruct (smiles s0); simpl; [discriminate | auto].
  - simpl. discriminate.
  - exact Hk.
Qed.

Lemma run_calls_app pre post : forall s,
  run_calls cfg (pre ++ post) s = run_calls cfg post (run_calls cfg pre s).
Proof.
  induction pre as [|[filepath retain] pre IH]; intros s; [reflexivity|].
  simpl. apply IH.
Qed.

Lemma run_calls_without_retention calls : forall s,
  existsb snd calls = false ->
  smiles (run_calls cfg calls s) = smiles s.
Proof.
  induction calls as [|[filepath retain] calls IH]; intros s H; [reflexivity|].
  simpl in H. apply orb_false_iff in H as [-> H].
  simpl. rewrite (IH _ H). apply parse_without_retention.
Qed.

(** C5, as the code has it. On a parser that starts without a list,
    [get_smiles] after a sequence of calls to [parse] logs a warning and
    returns None exactly when no call of the sequence asked for retention;
    when some call did, it returns the array of the list that the most
    recent such call left, whatever calls without retention came after
    it. *)
Theorem get_smiles_after_calls calls s :
  smiles s = None ->
  (existsb snd calls = false ->
   get_smiles (run_calls cfg calls s)
   = (Ok None,
      {| smiles := None;
         logger := logger (run_calls cfg calls s) ++ [(WARNING, SmilesIsNone)] |}))
  /\
  (forall pre filepath post,
     calls = pre ++ (filepath, true) :: post ->
     existsb snd post = false ->
     exists kept,
       smiles (run_calls cfg (pre ++ [(filepath, true)]) s) = Some kept /\
       get_smiles (run_calls cfg calls s)
       = (Ok (Some (numpy_array kept)), run_calls cfg calls s)).
Proof.
  intros Hnone. split.
  - intros Hno. pose proof (run_calls_without_retention calls s Hno) as Hs.
    rewrite Hnone in Hs. unfold get_smiles. rewrite Hs.
    unfold bind, log, pure. rewrite Hs. reflexivity.
  - intros pre filepath post -> Hpost.
    assert (Hlast : exists kept,
              smiles (run_calls cfg (pre ++ [(filepath, true)]) s) = Some kept).
    { rewrite run_calls_app. simpl. apply parse_with_retention. }
    destruct Hlast as [kept Hk]. exists kept. split; [exact Hk|].
    replace (pre ++ (filepath, true) :: post)
      with ((pre ++ [(filepath, true)]) ++ post)
      by (rewrite <- app_assoc; reflexivity).
    rewrite (run_calls_app (pre ++ [(filepath, true)]) post).
    unfold get_smiles.
    rewrite (run_calls_without_retention post _ Hpost), Hk. reflexivity.
Qed.

End Sequences.

(** * Further properties of the loop *)

Section Rows.

Context {tk : Toolkit}.
Variable cfg : parser_config.
Variable retain_smiles : bool.
Variable prepare_smiles_and_mol : mol -> result (string * mol).
Variable get_input_features : mol -> result pyobj.
Variable smiles_index : nat.
Variable labels_index : list nat.

Abbreviation body' := (loop_body cfg retain_smiles prepare_smiles_and_mol
                         get_input_features smiles_index labels_index).
Abbreviation loop' := (parse_rows cfg retain_smiles prepare_smiles_and_mol
                         get_input_features smiles_index labels_index).
Abbreviation outcome' := (row_outcome cfg retain_smiles prepare_smiles_and_mol
                            get_input_features smiles_index labels_index).
Abbreviation outs' := (outcomes cfg retain_smiles prepare_smiles_and_mol
                         get_input_features smiles_index labels_index).
Abbreviation kept_rows := (successful_rows cfg retain_smiles
                             prepare_smiles_and_mol get_input_features
                             smiles_index labels_index).
Abbreviation raises' := (raises_in_try cfg retain_smiles prepare_smiles_and_mol
                           get_input_features smiles_index labels_index).

(** *** Exceptions inside the [try] *)

Lemma try_block_raises lo row e s :
  raises' row e ->
  try_block cfg retain_smiles prepare_smiles_and_mol get_input_features lo
    (row_get row smiles_index) (PyList (map (row_get row) labels_index)) s
  = (Raise e, s).
Proof.
  intros Hraise. unfold try_block, bind, call, pure.
  destruct Hraise as [H0 | m H0 H1 | m std m' H0 H1 H2
                     | m std m' f post H0 H1 H2 Hpl H3
                     | m std m' f l H0 H1 H2 H3 Hr H4]; rewrite H0.
  - reflexivity.
  - rewrite H1. reflexivity.
  - rewrite H1, H2. reflexivity.
  - rewrite H1, H2, Hpl, H3. reflexivity.
  - rewrite H1, H2, Hr, H4.
    destruct (postprocess_label cfg) as [post|];
      [rewrite H3 | injection H3 as <-]; reflexivity.
Qed.

(** X1. Any exception deriving from Exception, other than
    MolFeatureExtractionError, that RDKit, the preprocessor or the label
    post-processing raises inside the [try] is taken by the generic handler:
    a warning with its class name and arguments and then its trace are
    logged, the row counts as a failure, the accumulators and the retained
    list stay as they were, and the loop goes on. *)
Theorem unexpected_exception_logged_and_skipped lo row e s :
  raises' row e ->
  is_MolFeatureExtractionError e = false ->
  is_Exception e = true ->
  body' lo row s = (Ok (failed lo), failure_logged e s) /\
  fail_count (failed lo) = S (fail_count lo) /\
  success_count (failed lo) = success_count lo /\
  features (failed lo) = features lo /\
  smiles (failure_logged e s) = smiles s.
Proof.
  intros Hraise Hm He. split; [|repeat split].
  unfold loop_body, try_except. cbv zeta. unfold bind at 1.
  rewrite (try_block_raises lo row e s Hraise).
  unfold except_clauses. rewrite Hm, He.
  unfold bind, log, pure, failure_logged. simpl.
  rewrite <- app_assoc. reflexivity.
Qed.

(** An exception that does not derive from Exception (KeyboardInterrupt,
    SystemExit) is taken by neither handler: the iteration raises it, with
    the parser as it was, and the loop over a table ends with it at that
    row. *)
Lemma non_exception_escapes_loop pre row post lo0 lo s s1 e :
  loop' pre lo0 s = (Ok lo, s1) ->
  raises' row e ->
  is_Exception e = false ->
  body' lo row s1 = (Raise e, s1) /\
  loop' (pre ++ row :: post) lo0 s = (Raise e, s1).
Proof.
  intros Hpre Hraise He.
  assert (Hb : body' lo row s1 = (Raise e, s1)).
  { unfold loop_body, try_except. cbv zeta. unfold bind at 1.
    rewrite (try_block_raises lo row e s1 Hraise).
    unfold except_clauses.
    assert (Hm : is_MolFeatureExtractionError e = false).
    { unfold is_Exception in He. unfold is_MolFeatureExtractionError.
      destruct (exn_type e); try reflexivity; discriminate. }
    rewrite Hm, He. reflexivity. }
  split; [exact Hb|].
  rewrite loop_app, Hpre. unfold parse_rows. cbn [for_rows]. unfold bind.
  rewrite Hb. reflexivity.
Qed.

(** *** Rows that fail leave no trace in the data *)

Lemma outcomes_kept_rows rs : outs' (kept_rows rs) = outs' rs.
Proof.
  induction rs as [|row rs IH]; [reflexivity|].
  unfold successful_rows. cbn [List.filter]. rewrite outcomes_cons.
  destruct (outcome' row) as [o|] eqn:Ho.
  - rewrite outcomes_cons, Ho. f_equal. exact IH.
  - exact IH.
Qed.

Lemma accumulate_congr lo lo2 f l lo1 :
  features lo2 = features lo ->
  success_count lo2 = success_count lo ->
  accumulate cfg lo f l = Ok lo1 ->
  accumulate cfg lo2 f l
  = Ok {| features := features lo1;
          fail_count := fail_count lo2;
          success_count := success_count lo1 |}.
Proof.
  intros Hf Hc. rewrite !accumulate_unfold, Hf, Hc.
  destruct (append_each _ _ _) as [fs|e]; [|discriminate].
  destruct (match labels cfg with Some _ => _ | None => _ end) as [fs'|e];
    [|discriminate].
  intros H. injection H as <-. reflexivity.
Qed.

Lemma loop_on_kept_rows rs : forall lo s lo' s' lo2 s2,
  ready retain_smiles s ->
  loop' rs lo s = (Ok lo', s') ->
  features lo2 = features lo ->
  success_count lo2 = success_count lo ->
  smiles s2 = smiles s ->
  exists lo2' s2',
    loop' (kept_rows rs) lo2 s2 = (Ok lo2', s2') /\
    features lo2' = features lo' /\
    success_count lo2' = success_count lo' /\
    fail_count lo2' = fail_count lo2 /\
    smiles s2' = smiles s' /\
    logger s2' = logger s2.
Proof.
  induction rs as [|row rs IH]; intros lo s lo' s' lo2 s2 Hready H Hf Hc Hs.
  - unfold parse_rows, for_rows, pure in H. injection H as <- <-.
    exists lo2, s2. repeat split; assumption.
  - apply loop_cons in H as (lo1 & s1 & Hb & Hl).
    apply body_completes in Hb as [Hready1 Hb]; [|exact Hready].
    unfold successful_rows. cbn [List.filter].
    destruct (outcome' row) as [[[std f] l]|] eqn:Ho.
    + destruct Hb as [Hacc ->].
      pose proof (ready_same_smiles retain_smiles s s2 Hs Hready) as Hready2.
      pose proof (body_spec cfg retain_smiles prepare_smiles_and_mol
                    get_input_features smiles_index labels_index
                    lo2 row s2 Hready2) as B.
      rewrite Ho in B.
      rewrite (accumulate_congr lo lo2 f l lo1 Hf Hc Hacc) in B.
      destruct (IH lo1 (retained retain_smiles std s) lo' s'
                  {| features := features lo1;
                     fail_count := fail_count lo2;
                     success_count := success_count lo1 |}
                  (retained retain_smiles std s2) Hready1 Hl
                  eq_refl eq_refl)
        as (lo2' & s2' & Hl2 & Hf2 & Hc2 & Hfail2 & Hs2 & Hlog2).
      { unfold retained. simpl. rewrite Hs. reflexivity. }
      exists lo2', s2'.
      split; [|repeat split; assumption].
      unfold parse_rows. cbn [for_rows]. unfold bind. rewrite B. exact Hl2.
    + destruct Hb as [-> Hs1].
      apply (IH _ _ _ _ lo2 s2 Hready1 Hl); [exact Hf | exact Hc | congruence].
Qed.

(** X10. Rows that fail leave no trace in the data: when the loop over a
    table completes, the loop over the table without its failing rows
    completes too, with the same accumulators, the same success count and
    the same retained list; it counts no failure and logs nothing. *)
Theorem failing_rows_leave_no_trace rs lo s s' :
  ready retain_smiles s ->
  loop' rs initial_locals s = (Ok lo, s') ->
  exists lo2 s2,
    loop' (kept_rows rs) initial_locals s = (Ok lo2, s2) /\
    features lo2 = features lo /\
    success_count lo2 = success_count lo /\
    fail_count lo2 = 0 /\
    smiles s2 = smiles s' /\
    logger s2 = logger s.
Proof.
  intros Hready H.
  apply (loop_on_kept_rows rs initial_locals s lo s' initial_locals s Hready H);
    reflexivity.
Qed.

(** *** What the slots hold *)

Lemma accumulate_explicit lo mid post f l :
  features lo = Some (mid ++ post) ->
  length mid = arity f ->
  length post = match labels cfg with Some _ => 1 | None => 0 end ->
  accumulate cfg lo f l
  = Ok {| features :=
            Some (zip_with (fun slot v => slot ++ [v]) mid (values f)
                  ++ map (fun slot => slot ++ [l]) post);
          fail_count := fail_count lo;
          success_count := S (success_count lo) |}.
Proof.
  intros Hf Hmid Hpost. rewrite accumulate_unfold, Hf.
  pose proof (append_each_zip (values f) [] mid post Hmid) as Hz.
  simpl in Hz. rewrite Hz. clear Hz.
  destruct (labels cfg) as [cs|].
  - destruct post as [|slot [|? ?]]; simpl in Hpost; try lia.
    rewrite slot_append_last. reflexivity.
  - destruct post; simpl in Hpost; [|lia]. reflexivity.
Qed.

Lemma loop_columns rs : forall lo s lo' s' fs n ds,
  ready retain_smiles s ->
  loop' rs lo s = (Ok lo', s') ->
  features lo = Some fs ->
  length fs = n + match labels cfg with Some _ => 1 | None => 0 end ->
  Forall (fun o => arity (snd (fst o)) = n) (outs' rs) ->
  (forall j, j < n ->
     exists slot, fs !! j = Some slot /\
       Forall2 (fun o v => values (snd (fst o)) !! j = Some v) ds slot) ->
  exists fs', features lo' = Some fs' /\
    forall j, j < n ->
      exists slot, fs' !! j = Some slot /\
        Forall2 (fun o v => values (snd (fst o)) !! j = Some v)
          (ds ++ outs' rs) slot.
Proof.
  induction rs as [|row rs IH];
    intros lo s lo' s' fs n ds Hready H Hf Hlen Har Hcols.
  - unfold parse_rows, for_rows, pure in H. injection H as <- <-.
    exists fs. split; [exact Hf|]. simpl. rewrite app_nil_r. exact Hcols.
  - apply loop_cons in H as (lo1 & s1 & Hb & Hl).
    apply body_completes in Hb as [Hready1 Hb]; [|exact Hready].
    rewrite outcomes_cons in Har |- *.
    destruct (outcome' row) as [[[std f] l]|].
    + destruct Hb as [Hacc _].
      inversion Har as [|? ? Hf_n Har']; subst. cbn [fst snd] in *.
      destruct (split_slots fs _ _ Hlen) as (mid & post & -> & Hmid & Hpost).
      rewrite (accumulate_explicit lo mid post f l Hf Hmid Hpost) in Hacc.
      injection Hacc as <-.
      assert (Hzlen : length (zip_with (fun (slot : list pyobj) v => slot ++ [v])
                                mid (values f)) = arity f).
      { rewrite length_zip_with. unfold arity in *. lia. }
      destruct (IH _ _ _ _ _ (arity f) (ds ++ [(std, f, l)]) Hready1 Hl eq_refl)
        as (fs' & Hf' & Hcols').
      * rewrite length_app, length_map. lia.
      * exact Har'.
      * intros j Hj. destruct (Hcols j Hj) as (slot & Hslot & HF).
        rewrite lookup_app_l in Hslot by lia.
        destruct (lookup_lt_is_Some_2 (values f) j) as [v Hv];
          [unfold arity in Hj; exact Hj|].
        exists (slot ++ [v]). split.
        -- rewrite lookup_app_l by lia.
           apply lookup_zip_with_Some. exists slot, v. auto.
        -- apply Forall2_app; [exact HF|]. constructor; [exact Hv | constructor].
      * exists fs'. split; [exact Hf'|]. intros j Hj.
        destruct (Hcols' j Hj) as (slot & Hslot & HF).
        exists slot. split; [exact Hslot|].
        rewrite <- app_assoc in HF. exact HF.
    + destruct Hb as [-> _]. eapply IH; eauto.
Qed.

Lemma loop_columns_from_none rs : forall lo s lo' s' o os,
  ready retain_smiles s ->
  loop' rs lo s = (Ok lo', s') ->
  features lo = None ->
  same_arity (outs' rs) ->
  outs' rs = o :: os ->
  exists fs, features lo' = Some fs /\
    forall j, j < arity (snd (fst o)) ->
      exists slot, fs !! j = Some slot /\
        Forall2 (fun o' v => values (snd (fst o')) !! j = Some v)
          (outs' rs) slot.
Proof.
  induction rs as [|row rs IH]; intros lo s lo' s' o os Hready H Hf Har Hos.
  - discriminate.
  - apply loop_cons in H as (lo1 & s1 & Hb & Hl).
    apply body_completes in Hb as [Hready1 Hb]; [|exact Hready].
    rewrite outcomes_cons in Har, Hos |- *.
    destruct (outcome' row) as [[[std f] l]|].
    + destruct Hb as [Hacc _]. rewrite (accumulate_first cfg lo f l Hf) in Hacc.
      injection Hacc as <-. injection Hos as <- Hos. cbn [fst snd].
      simpl in Har.
      destruct (loop_columns rs _ _ _ _ _ (arity f) [(std, f, l)] Hready1 Hl
                  eq_refl) as (fs' & Hf' & Hcols').
      * rewrite length_app, length_map. unfold arity.
        destruct (labels cfg); reflexivity.
      * exact Har.
      * intros j Hj.
        destruct (lookup_lt_is_Some_2 (values f) j) as [v Hv];
          [unfold arity in Hj; exact Hj|].
        exists [v]. split.
        -- rewrite lookup_app_l by (rewrite length_map; exact Hj).
           rewrite list_lookup_fmap, Hv. reflexivity.
        -- constructor; [exact Hv | constructor].
      * exists fs'. split; [exact Hf' | exact Hcols'].
    + destruct Hb as [-> _]. apply (IH _ _ _ _ o os Hready1 Hl Hf Har Hos).
Qed.

(** X9. With every successful record of the arity of the first one, after
    the loop each feature slot holds one value per successful record, in row
    order: slot j holds the j-th value of every record's feature output. *)
Theorem feature_slots_hold_values_in_row_order rs lo s s' o os j :
  ready retain_smiles s ->
  loop' rs initial_locals s = (Ok lo, s') ->
  same_arity (outs' rs) ->
  outs' rs = o :: os ->
  j < arity (snd (fst o)) ->
  exists fs slot,
    features lo = Some fs /\
    fs !! j = Some slot /\
    Forall2 (fun o' v => values (snd (fst o')) !! j = Some v) (outs' rs) slot.
Proof.
  intros Hready H Har Hos Hj.
  destruct (loop_columns_from_none rs _ _ _ _ o os Hready H eq_refl Har Hos)
    as (fs & Hf & Hcols).
  destruct (Hcols j Hj) as (slot & Hslot & HF).
  exists fs, slot. auto.
Qed.

(** X11. A record with fewer values than there are slots raises nothing:
    it is counted as a success, its values go to the first slots, and the
    other feature slots are left one entry short (no labels configured). *)
Theorem short_record_leaves_slots_uneven lo mid rest t l :
  labels cfg = None ->
  features lo = Some (mid ++ rest) ->
  length mid = length t ->
  accumulate cfg lo (PyTuple t) l
  = Ok {| features := Some (zip_with (fun slot v => slot ++ [v]) mid t ++ rest);
          fail_count := fail_count lo;
          success_count := S (success_count lo) |}.
Proof.
  intros Hlab Hf Hmid. rewrite accumulate_unfold, Hf, Hlab.
  pose proof (append_each_zip t [] mid rest Hmid) as Hz.
  simpl in Hz. simpl values. rewrite Hz. reflexivity.
Qed.

(** *** The conversion of the slots *)


(** X8. Only ValueError is taken by the conversion: the first slot on which
    numpy.asarray raises another exception ends the conversion with that
    exception. *)
Theorem conversion_error_propagates pre feature post e :
  Forall (fun f => forall e', asarray_error f = Some e' ->
                              is_ValueError e' = true) pre ->
  asarray_error feature = Some e ->
  is_ValueError e = false ->
  convert (Some (pre ++ feature :: post)) = Raise e.
Proof.
  intros Hpre He Hv. unfold convert. generalize (@nil ndarray).
  induction Hpre as [|f pre Hf Hpre IH]; intros acc.
  - cbn [app to_arrays]. unfold to_array, numpy_asarray.
    rewrite He, Hv. reflexivity.
  - cbn [app to_arrays]. unfold to_array, numpy_asarray.
    destruct (asarray_error f) as [e'|] eqn:He'.
    + rewrite (Hf e' eq_refl). apply IH.
    + apply IH.
Qed.

End Rows.

(** * Further properties of [parse] *)

Section Files.

Context {tk : Toolkit}.
Variable cfg : parser_config.
Variable retain_smiles : bool.
Variable prepare_smiles_and_mol : mol -> result (string * mol).
Variable get_input_features : mol -> result pyobj.
Variable filepath : string.
Variable df : DataFrame.

Hypothesis mol_preprocessor :
  preprocessor cfg = MolPreprocessor prepare_smiles_and_mol get_input_features.

Lemma parse_on_table s :
  (forall s0, read_table filepath s0 = (Ok df, s0)) ->
  parse cfg filepath retain_smiles s
  = match parse_frame cfg retain_smiles prepare_smiles_and_mol
            get_input_features df (started retain_smiles s) with
    | (Ok res, s1) => package cfg res s1
    | (Raise e, s1) => (Raise e, s1)
    end.
Proof.
  intros Hread. unfold parse, bind. rewrite mol_preprocessor.
  unfold started, reset_smiles, pure.
  destruct retain_smiles; rewrite Hread; reflexivity.
Qed.

Lemma parse_read_fails s e :
  (forall s0, read_table filepath s0 = (Raise e, s0)) ->
  parse cfg filepath retain_smiles s = (Raise e, started retain_smiles s).
Proof.
  intros Hread. unfold parse, bind. rewrite mol_preprocessor.
  unfold started, reset_smiles, pure.
  destruct retain_smiles; rewrite Hread; reflexivity.
Qed.

Lemma index_of_None c cols : index_of c cols = None <-> ~ In c cols.
Proof.
  induction cols as [|c' cols IH]; simpl.
  - split; [intros _ [] | reflexivity].
  - destruct (String.eqb_spec c c') as [->|Hne].
    + split; [discriminate | intros H; exfalso; apply H; left; reflexivity].
    + destruct (index_of c cols); simpl.
      * split; [discriminate|]. intros H. exfalso.
        destruct IH as [_ IH]. 
        assert (Hnot : ~ In c cols) by (intros Hin; apply H; right; exact Hin).
        specialize (IH Hnot). discriminate.
      * split; [|reflexivity]. intros _ [Heq|Hin]; [congruence|].
        destruct IH as [IH _]. exact (IH eq_refl Hin).
Qed.

Lemma get_loc_present c :
  In c (columns df) -> exists i, get_loc df c = Ok i.
Proof.
  intros Hin. unfold get_loc.
  destruct (index_of c (columns df)) as [i|] eqn:Hi; [exists i; reflexivity|].
  apply index_of_None in Hi. contradiction.
Qed.

Lemma get_loc_absent c :
  ~ In c (columns df) -> get_loc df c = Raise (Exn KeyError [PyStr c]).
Proof.
  intros Hin. unfold get_loc. apply index_of_None in Hin. rewrite Hin.
  reflexivity.
Qed.

(** X3. A table without the SMILES column ends the call with KeyError on
    that column name before any row is looked at: nothing is logged, and
    [self.smiles] is as the first statement of [parse] left it. *)
Theorem missing_smiles_column_raises s :
  read_csv filepath = Ok df ->
  ~ In (smiles_col cfg) (columns df) ->
  parse cfg filepath retain_smiles s
  = (Raise (Exn KeyError [PyStr (smiles_col cfg)]), started retain_smiles s).
Proof.
  intros Hread Hcol. rewrite parse_on_table.
  - unfold parse_frame, bind, call. rewrite (get_loc_absent _ Hcol). reflexivity.
  - intros s0. unfold read_table, try_except, call. rewrite Hread. reflexivity.
Qed.

Lemma get_locs_missing found c rest :
  Forall (fun c' => In c' (columns df)) found ->
  ~ In c (columns df) ->
  get_locs df (found ++ c :: rest) = Raise (Exn KeyError [PyStr c]).
Proof.
  intros Hfound Hc. induction Hfound as [|c' found Hc' Hfound IH]; simpl.
  - rewrite (get_loc_absent _ Hc). reflexivity.
  - destruct (get_loc_present c' Hc') as [i ->]. rewrite IH. reflexivity.
Qed.

(** X4. With the SMILES column present, the first configured label column
    that the table does not have ends the call with KeyError on its name,
    again before any row is looked at. *)
Theorem missing_label_column_raises s found c rest :
  read_csv filepath = Ok df ->
  In (smiles_col cfg) (columns df) ->
  labels cfg = Some (found ++ c :: rest) ->
  Forall (fun c' => In c' (columns df)) found ->
  ~ In c (columns df) ->
  parse cfg filepath retain_smiles s
  = (Raise (Exn KeyError [PyStr c]), started retain_smiles s).
Proof.
  intros Hread Hsm Hlab Hfound Hc. rewrite parse_on_table.
  - unfold parse_frame, bind, call.
    destruct (get_loc_present _ Hsm) as [i ->].
    unfold labels_locs. rewrite Hlab, (get_locs_missing found c rest Hfound Hc).
    reflexivity.
  - intros s0. unfold read_table, try_except, call. rewrite Hread. reflexivity.
Qed.

(** X5. When pandas.read_csv raises AttributeError and
    pandas.DataFrame.from_csv returns a table, the call goes on exactly as it
    does for a file that read_csv reads into that table. *)
Theorem legacy_reader_gives_same_parse s filepath' e :
  read_csv filepath = Raise e ->
  is_AttributeError e = true ->
  from_csv filepath = Ok df ->
  read_csv filepath' = Ok df ->
  parse cfg filepath retain_smiles s = parse cfg filepath' retain_smiles s.
Proof.
  intros Hread He Hfrom Hread'.
  rewrite parse_on_table.
  - symmetry. unfold parse, bind. rewrite mol_preprocessor.
    unfold read_table, try_except, call. rewrite Hread'.
    unfold started, reset_smiles, pure. destruct retain_smiles; reflexivity.
  - intros s0. unfold read_table, try_except, call.
    rewrite Hread, He, Hfrom. reflexivity.
Qed.

(** X6. Any other exception of pandas.read_csv ends the call: the legacy
    reader is not tried, no row is processed, nothing is logged. *)
Theorem read_error_propagates s e :
  read_csv filepath = Raise e ->
  is_AttributeError e = false ->
  parse cfg filepath retain_smiles s = (Raise e, started retain_smiles s).
Proof.
  intros Hread He. apply parse_read_fails.
  intros s0. unfold read_table, try_except, call. rewrite Hread, He.
  reflexivity.
Qed.

Variable smiles_index : nat.
Variable labels_index : list nat.
Hypothesis csv_read : read_csv filepath = Ok df.
Hypothesis smiles_located : get_loc df (smiles_col cfg) = Ok smiles_index.
Hypothesis labels_located : labels_locs cfg df = Ok labels_index.

(** X2. An exception that does not derive from Exception (KeyboardInterrupt,
    SystemExit), raised by a collaborator inside the [try] of a row, is taken
    by neither handler: the call to [parse] ends with it at that row, and
    nothing is logged for it. *)
Theorem non_exception_aborts_parse s pre row post lo s1 e :
  rows df = pre ++ row :: post ->
  parse_rows cfg retain_smiles prepare_smiles_and_mol get_input_features
    smiles_index labels_index pre initial_locals (started retain_smiles s)
  = (Ok lo, s1) ->
  raises_in_try cfg retain_smiles prepare_smiles_and_mol get_input_features
    smiles_index labels_index row e ->
  is_Exception e = false ->
  parse cfg filepath retain_smiles s = (Raise e, s1).
Proof.
  intros Hrows Hpre Hraise He.
  rewrite (parse_unfold cfg retain_smiles prepare_smiles_and_mol
             get_input_features filepath df mol_preprocessor csv_read).
  rewrite (parse_frame_unfold cfg retain_smiles prepare_smiles_and_mol
             get_input_features df smiles_index labels_index
             smiles_located labels_located).
  rewrite Hrows.
  destruct (non_exception_escapes_loop cfg retain_smiles prepare_smiles_and_mol
              get_input_features smiles_index labels_index pre row post
              initial_locals lo (started retain_smiles s) s1 e Hpre Hraise He)
    as [_ ->].
  reflexivity.
Qed.

(** X12. After a call with retention that returns, under the conditions of
    an aligned result (no result post-processing, every successful record of
    the arity of the first), [get_smiles] returns without a warning an array
    as long as every array of the dataset, holding the standardized strings
    of the successful rows: entry i of it belongs to entry i of each
    array. *)
Theorem smiles_aligned_with_dataset s d s' :
  retain_smiles = true ->
  postprocess_fn cfg = None ->
  same_arity (outcomes cfg retain_smiles prepare_smiles_and_mol
                get_input_features smiles_index labels_index (rows df)) ->
  parse cfg filepath retain_smiles s = (Ok d, s') ->
  exists ret a,
    NumpyTupleDataset (map ResArray ret) = Ok d /\
    get_smiles s' = (Ok (Some a), s') /\
    array_items a
    = map (fun o => PyStr (fst (fst o)))
        (outcomes cfg retain_smiles prepare_smiles_and_mol
           get_input_features smiles_index labels_index (rows df)) /\
    Forall (fun r => array_len r = array_len a) ret.
Proof.
  intros Hr Hpost Har H.
  apply (parse_returns cfg retain_smiles prepare_smiles_and_mol
           get_input_features filepath df smiles_index labels_index
           mol_preprocessor csv_read smiles_located labels_located) in H
    as (lo & s1 & ret & Hl & Hconv & -> & Hpack).
  unfold package in Hpack. rewrite Hpost in Hpack. unfold call in Hpack.
  injection Hpack as Hd.
  pose proof (ready_started retain_smiles s) as Hready.
  destruct (loop_successes _ _ _ _ _ _ _ _ _ _ _ Hready Hl) as (_ & Hc & Hs).
  simpl in Hc.
  pose proof (loop_from_none _ _ _ _ _ _ _ _ _ _ _ Hready Hl eq_refl eq_refl Har)
    as Hsl.
  set (os := outcomes cfg retain_smiles prepare_smiles_and_mol
               get_input_features smiles_index labels_index (rows df)) in *.
  assert (Hkept : smiles s1 = Some (map (fun o => fst (fst o)) os)).
  { rewrite Hs. unfold started. rewrite Hr. reflexivity. }
  exists ret, (numpy_array (map (fun o => fst (fst o)) os)).
  split; [exact Hd|].
  split; [unfold get_smiles; simpl; rewrite Hkept; reflexivity|].
  split; [unfold numpy_array; simpl; rewrite map_map; reflexivity|].
  unfold array_len, numpy_array. simpl. rewrite !length_map.
  destruct os as [|o os'] eqn:Hos.
  { rewrite Hsl in Hconv. discriminate. }
  destruct Hsl as (fs & Hf & HF & _).
  rewrite Hf in Hconv. simpl in Hconv.
  apply to_arrays_items in Hconv as (made & -> & H2). simpl app.
  clear Hd Hf. revert HF.
  induction H2; intros HF; [constructor|].
  inversion HF; subst.
  constructor; [congruence | auto].
Qed.

End Files.

Section Bypass.

Context {tk : Toolkit}.
Variable cfg : parser_config.
Variable process : string -> result pyresult.
Hypothesis other_preprocessor : preprocessor cfg = OtherPreprocessor process.

(** X13. With a preprocessor that is not a MolPreprocessor the table is not
    read and no row is looked at: whatever the call returns or raises, it
    logs nothing, and after a call with retention [get_smiles] returns an
    empty array without a warning. *)
Theorem other_preprocessor_retains_nothing filepath s :
  logger (snd (parse cfg filepath true s)) = logger s /\
  get_smiles (snd (parse cfg filepath true s))
  = (Ok (Some (numpy_array [])), snd (parse cfg filepath true s)) /\
  snd (parse cfg filepath false s) = s.
Proof.
  assert (Hstate : forall retain,
            snd (parse cfg filepath retain s)
            = if retain then {| smiles := Some []; logger := logger s |} else s).
  { intros retain. unfold parse, bind. rewrite other_preprocessor.
    unfold call, reset_smiles, pure.
    destruct retain; simpl;
      (destruct (process filepath) as [res|e]; [apply package_state | reflexivity]). }
  rewrite !Hstate. repeat split.
Qed.

End Bypass.

(** ** The result of a call does not depend on earlier calls *)

Section Agreement.

Context {tk : Toolkit}.
Variable cfg : parser_config.
Variable retain_smiles : bool.
Variable R : parser_state -> parser_state -> Prop.

Hypothesis R_log : forall lv msg, agrees R (log lv msg).
Hypothesis R_append :
  retain_smiles = true -> forall x, agrees R (smiles_append x).

Lemma agrees_pure {A} (a : A) : agrees R (pure a).
Proof. intros s1 s2 H. split; [reflexivity | exact H]. Qed.

Lemma agrees_call {A} (r : result A) : agrees R (call r).
Proof. intros s1 s2 H. split; [reflexivity | exact H]. Qed.

Lemma agrees_raise {A} e : agrees R (@raise A e).
Proof. intros s1 s2 H. split; [reflexivity | exact H]. Qed.

Lemma agrees_bind {A B} (m : M A) (k : A -> M B) :
  agrees R m -> (forall a, agrees R (k a)) -> agrees R (bind m k).
Proof.
  intros Hm Hk s1 s2 H. unfold bind. destruct (Hm s1 s2 H) as [Hfst Hsnd].
  destruct (m s1) as [[a1|e1] t1], (m s2) as [[a2|e2] t2]; simpl in *;
    try discriminate.
  - injection Hfst as <-. apply Hk. exact Hsnd.
  - injection Hfst as <-. split; [reflexivity | exact Hsnd].
Qed.

Lemma agrees_try_except {A} (body : M A) handler :
  agrees R body ->
  (forall e h, handler e = Some h -> agrees R h) ->
  agrees R (try_except body handler).
Proof.
  intros Hb Hh s1 s2 H. unfold try_except. destruct (Hb s1 s2 H) as [Hfst Hsnd].
  destruct (body s1) as [[a1|e1] t1], (body s2) as [[a2|e2] t2]; simpl in *;
    try discriminate.
  - injection Hfst as <-. split; [reflexivity | exact Hsnd].
  - injection Hfst as <-.
    destruct (handler e1) as [h|] eqn:He.
    + apply (Hh e1 h He). exact Hsnd.
    + split; [reflexivity | exact Hsnd].
Qed.

Lemma agrees_try_block p g lo sv rl :
  agrees R (try_block cfg retain_smiles p g lo sv rl).
Proof.
  unfold try_block.
  apply agrees_bind; [apply agrees_call|]. intros [m|]; [|apply agrees_pure].
  apply agrees_bind; [apply agrees_call|]. intros [std m'].
  apply agrees_bind; [apply agrees_call|]. intros f.
  apply agrees_bind.
  { destruct (postprocess_label cfg); [apply agrees_call | apply agrees_pure]. }
  intros l. apply agrees_bind; [|intros; apply agrees_pure].
  destruct retain_smiles eqn:Hr; [|apply agrees_pure].
  apply agrees_bind; [apply agrees_call|]. intros c.
  destruct (String.eqb std c); [apply R_append; reflexivity | apply agrees_raise].
Qed.

Lemma agrees_except_clauses lo e h :
  except_clauses lo e = Some h -> agrees R h.
Proof.
  unfold except_clauses.
  destruct (is_MolFeatureExtractionError e).
  - intros H. injection H as <-. apply agrees_pure.
  - destruct (is_Exception e); [|discriminate].
    intros H. injection H as <-.
    apply agrees_bind; [apply R_log|]. intros _.
    apply agrees_bind; [apply R_log|]. intros _. apply agrees_pure.
Qed.

Lemma agrees_for_rows body rs :
  (forall lo row, agrees R (body lo row)) ->
  forall lo, agrees R (for_rows body rs lo).
Proof.
  intros Hb. induction rs as [|row rs IH]; intros lo; simpl.
  - apply agrees_pure.
  - apply agrees_bind; [apply Hb | exact IH].
Qed.

Lemma agrees_parse_frame p g df :
  agrees R (parse_frame cfg retain_smiles p g df).
Proof.
  unfold parse_frame.
  apply agrees_bind; [apply agrees_call|]. intros si.
  apply agrees_bind; [apply agrees_call|]. intros li.
  apply agrees_bind.
  { apply agrees_for_rows. intros lo row. unfold loop_body. cbv zeta.
    apply agrees_bind.
    - apply agrees_try_except; [apply agrees_try_block|].
      apply agrees_except_clauses.
    - intros [lo'|f l]; [apply agrees_pure | apply agrees_call]. }
  intros lo. apply agrees_bind; [apply agrees_call|]. intros ret.
  apply agrees_bind; [apply R_log|]. intros _. apply agrees_pure.
Qed.

Lemma agrees_package res : agrees R (package cfg res).
Proof.
  unfold package. destruct res as [arrays|a]; destruct (postprocess_fn cfg).
  - apply agrees_bind; [apply agrees_call|]. intros res'.
    apply agrees_bind; [apply agrees_call|]. intros args.
    apply agrees_call.
  - apply agrees_call.
  - apply agrees_bind; [apply agrees_call|]. intros res'.
    apply agrees_call.
  - apply agrees_call.
Qed.

Lemma agrees_after_first_statement filepath :
  agrees R
    (bind (match preprocessor cfg with
           | MolPreprocessor p g =>
               bind (read_table filepath)
                 (fun df => parse_frame cfg retain_smiles p g df)
           | OtherPreprocessor process => call (process filepath)
           end)
       (fun res => package cfg res)).
Proof.
  apply agrees_bind; [|intros res; apply agrees_package].
  destruct (preprocessor cfg) as [p g|process]; [|apply agrees_call].
  apply agrees_bind; [|intros df; apply agrees_parse_frame].
  unfold read_table. apply agrees_try_except; [apply agrees_call|].
  intros e h. destruct (is_AttributeError e); [|discriminate].
  intros H. injection H as <-. apply agrees_call.
Qed.

End Agreement.

Section History.

Context {tk : Toolkit}.
Variable cfg : parser_config.

(** X14. What a call to [parse] returns or raises does not depend on the
    parser's history: from any two states of [self.smiles] and of the log,
    the same call ends with the same dataset or the same exception. *)
Theorem parse_result_independent_of_history filepath retain_smiles s1 s2 :
  fst (parse cfg filepath retain_smiles s1)
  = fst (parse cfg filepath retain_smiles s2).
Proof.
  destruct retain_smiles.
  - pose proof (agrees_after_first_statement cfg true
                  (fun a b => smiles a <> None /\ smiles b <> None)) as H.
    unfold parse. unfold bind at 1 3. unfold reset_smiles.
    apply H.
    + intros lv msg a b Hab. split; [reflexivity | exact Hab].
    + intros _ x a b [Ha Hb]. unfold smiles_append.
      destruct (smiles a) as [la|] eqn:Ea, (smiles b) as [lb|] eqn:Eb;
        try contradiction.
      simpl. split; [reflexivity | split; discriminate].
    + simpl. split; discriminate.
  - pose proof (agrees_after_first_statement cfg false (fun _ _ => True)) as H.
    unfold parse. unfold bind at 1 3. unfold pure.
    apply H.
    + intros lv msg a b _. split; [reflexivity | exact I].
    + discriminate.
    + exact I.
Qed.


End History.

Section Columns.

Context {tk : Toolkit}.
Variable cfg : parser_config.
Variable retain_smiles : bool.
Variable prepare_smiles_and_mol : mol -> result (string * mol).
Variable get_input_features : mol -> result pyobj.
Variable filepath : string.
Variable df : DataFrame.

Hypothesis mol_preprocessor :
  preprocessor cfg = MolPreprocessor prepare_smiles_and_mol get_input_features.
Hypothesis csv_read : read_csv filepath = Ok df.

Lemma index_of_Some c cols : forall i,
  index_of c cols = Some i -> cols !! i = Some c.
Proof.
  induction cols as [|c' cols IH]; intros i H; simpl in H; [discriminate|].
  destruct (String.eqb_spec c c') as [->|Hne].
  - injection H as <-. reflexivity.
  - destruct (index_of c cols) as [k|]; [|discriminate].
    injection H as <-. simpl. apply IH. reflexivity.
Qed.

(** X17. The label list of a row follows the configuration: the indexes at
    which the row is read are, in the configured order, one per configured
    label name, each the position of a column of that name; without labels
    there is none and the list of every row is empty. *)
Theorem label_cells_follow_configuration li :
  labels_locs cfg df = Ok li ->
  match labels cfg with
  | Some cs =>
      Forall2 (fun c i => columns df !! i = Some c) cs li /\
      forall row, length (map (row_get row) li) = length cs
  | None => li = []
  end.
Proof.
  unfold labels_locs. destruct (labels cfg) as [cs|].
  2: { intros H. injection H as <-. reflexivity. }
  intros H.
  assert (HF : Forall2 (fun c i => columns df !! i = Some c) cs li).
  { revert li H. induction cs as [|c cs IH]; intros li H; simpl in H.
    - injection H as <-. constructor.
    - unfold get_loc in H.
      destruct (index_of c (columns df)) as [i|] eqn:Hi; [|discriminate].
      destruct (get_locs df cs) as [is'|e]; [|discriminate].
      injection H as <-. constructor; [apply index_of_Some; exact Hi|].
      apply IH. reflexivity. }
  split; [exact HF|].
  intros row. rewrite length_map. symmetry. eapply Forall2_length. exact HF.
Qed.



End Columns.

(** * The properties on the concrete toolkit *)

Section Instances.

Import Demo.

(** C1. A table in which no row succeeds: the only row of "bad.csv" is not
    a molecule, the loop counts it as a failure and completes, and the
    conversion then iterates over [features], still None.  The call raises
    TypeError instead of returning an empty dataset, and the summary line is
    never logged. *)
Theorem parse_without_success_raises :
  @parse rdkit cfg_atoms "bad.csv" false fresh
  = (Raise (Exn TypeError [PyStr "'NoneType' object is not iterable"]), fresh)
  /\ @parse_rows rdkit cfg_atoms false prepare atom_features 0 []
       (rows bad) initial_locals fresh
     = (Ok {| features := None; fail_count := 1; success_count := 0 |}, fresh).
Proof. split; vm_compute; reflexivity. Qed.

(** C2 fails on the code: in "ethanol.csv" read with a preprocessor that
    returns the string as written, the second row's standardized string
    "OCC" differs from the re-serialized "CCO", and yet the call with
    retention returns a dataset, with that row logged and counted as the one
    failure. *)
Lemma assertion_failure_does_not_halt :
  prepare_raw "OCC" = Ok ("OCC", "OCC") /\
  @MolToSmiles rdkit "OCC" = Ok "CCO" /\
  (exists d s',
     @parse rdkit cfg_raw "ethanol.csv" true fresh = (Ok d, s') /\
     logger s' = [(WARNING, ParseFailed "AssertionError" []);
                  (INFO, Traceback (Exn AssertionError []));
                  (INFO, PreprocessFinished 1 1 2)] /\
     smiles s' = Some ["CCO"]).
Proof.
  split; [reflexivity|]. split; [reflexivity|].
  exists (returned raw_parse), (snd raw_parse).
  split; [vm_compute; reflexivity|]. split; reflexivity.
Qed.

Lemma assertion_failure_is_row_failure_witness :
  @loop_body rdkit cfg_raw true prepare_raw atom_features 0 []
    initial_locals row_ethanol emptied
  = (Ok (failed initial_locals), assertion_logged emptied) /\
  fail_count (failed initial_locals) = S (fail_count initial_locals) /\
  success_count (failed initial_locals) = success_count initial_locals /\
  features (failed initial_locals) = features initial_locals /\
  smiles (assertion_logged emptied) = smiles emptied.
Proof.
  apply (@assertion_failure_is_row_failure rdkit cfg_raw true prepare_raw
           atom_features 0 [] initial_locals row_ethanol emptied
           "OCC" "OCC" "OCC" (atoms "OCC") (PyList []) "CCO");
    try reflexivity.
  discriminate.
Defined.

Lemma counts_add_up_witness :
  success_count (completed mols_loop) + fail_count (completed mols_loop)
  = length (rows mols) /\
  fail_count (completed mols_loop) + success_count (completed mols_loop)
  <= length (rows mols) /\
  (@nil (list pyobj) = [] ->
   success_count (completed mols_loop) + fail_count (completed mols_loop)
   = length (rows mols)).
Proof.
  apply (@counts_add_up rdkit cfg_atoms true prepare atom_features 0 []
           mols (rows mols) [] (completed mols_loop) emptied (snd mols_loop)).
  - reflexivity.
  - vm_compute. reflexivity.
Defined.

Lemma retained_smiles_are_canonical_witness :
  exists fail success kept,
    last (logger (snd ethanol_parse))
    = Some (INFO, PreprocessFinished fail success (length (rows ethanol))) /\
    smiles (snd ethanol_parse) = Some kept /\
    length kept = success /\
    kept = map (fun o => fst (fst o))
             (@outcomes rdkit cfg_atoms true prepare atom_features 0 []
                (rows ethanol)) /\
    Forall (fun c => exists row m m',
              In row (rows ethanol) /\
              @MolFromSmiles rdkit (row_get row 0) = Ok (Some m) /\
              prepare m = Ok (c, m') /\
              @MolToSmiles rdkit m' = Ok c) kept.
Proof.
  apply (@retained_smiles_are_canonical rdkit cfg_atoms true prepare
           atom_features "ethanol.csv" ethanol 0 []
           eq_refl eq_refl eq_refl eq_refl
           fresh (returned ethanol_parse) (snd ethanol_parse)).
  - reflexivity.
  - vm_compute. reflexivity.
Defined.

(** The list that "mols.csv" left is still returned after a call without
    retention on "ethanol.csv": C5 fails on the code, which would have
    [get_smiles] log a warning and return None there. *)
Lemma stale_smiles_returned :
  fst (get_smiles
         (@run_calls rdkit cfg_atoms
            [("mols.csv", true); ("ethanol.csv", false)] fresh))
  = Ok (Some (numpy_array ["CCO"; "c1ccccc1"])) /\
  ~ In (WARNING, SmilesIsNone)
      (logger (snd (get_smiles
         (@run_calls rdkit cfg_atoms
            [("mols.csv", true); ("ethanol.csv", false)] fresh)))).
Proof.
  split; [vm_compute; reflexivity|].
  vm_compute. intros [H|[H|[]]]; discriminate H.
Qed.

Lemma get_smiles_after_calls_witness :
  let calls := [("mols.csv", true); ("ethanol.csv", false)] in
  (existsb snd calls = false ->
   get_smiles (@run_calls rdkit cfg_atoms calls fresh)
   = (Ok None,
      {| smiles := None;
         logger := logger (@run_calls rdkit cfg_atoms calls fresh)
                   ++ [(WARNING, SmilesIsNone)] |}))
  /\
  (forall pre filepath post,
     calls = pre ++ (filepath, true) :: post ->
     existsb snd post = false ->
     exists kept,
       smiles (@run_calls rdkit cfg_atoms (pre ++ [(filepath, true)]) fresh)
       = Some kept /\
       get_smiles (@run_calls rdkit cfg_atoms calls fresh)
       = (Ok (Some (numpy_array kept)), @run_calls rdkit cfg_atoms calls fresh)).
Proof.
  intros calls.
  apply (@get_smiles_after_calls rdkit cfg_atoms calls fresh).
  reflexivity.
Defined.

Lemma expected_failure_skipped_witness :
  (exists lo',
     @loop_body rdkit cfg_atoms true prepare atom_features 0 []
       (completed mols_loop) row_junk (snd mols_loop)
     = (Ok lo', snd mols_loop) /\
     fail_count lo' = S (fail_count (completed mols_loop)) /\
     success_count lo' = success_count (completed mols_loop) /\
     features lo' = features (completed mols_loop))
  /\
  (exists lo',
     @loop_body rdkit cfg_plain true prepare plain_features 0 []
       (completed mols_loop) row_benzene (snd mols_loop)
     = (Ok lo', snd mols_loop) /\
     fail_count lo' = S (fail_count (completed mols_loop)) /\
     success_count lo' = success_count (completed mols_loop) /\
     features lo' = features (completed mols_loop)).
Proof.
  split.
  - apply (@expected_failure_skipped rdkit cfg_atoms true prepare
             atom_features 0 [] (completed mols_loop) row_junk (snd mols_loop)).
    apply unparseable. reflexivity.
  - apply (@expected_failure_skipped rdkit cfg_plain true prepare
             plain_features 0 [] (completed mols_loop) row_benzene
             (snd mols_loop)).
    apply (@extraction_failed rdkit prepare plain_features 0 row_benzene
             "c1ccccc1" "c1ccccc1" "c1ccccc1"
             (Exn MolFeatureExtractionError [PyStr "c1ccccc1"]));
      reflexivity.
Defined.

Lemma ragged_slot_becomes_object_array_witness :
  exists a,
    @to_array rdkit [atoms "CCO"; atoms "c1ccccc1"] = Ok a /\
    array_dtype a = ObjectDtype /\
    array_len a = length [atoms "CCO"; atoms "c1ccccc1"] /\
    array_items a = [atoms "CCO"; atoms "c1ccccc1"] /\
    @to_arrays rdkit ([atoms "CCO"; atoms "c1ccccc1"] :: []) []
    = @to_arrays rdkit [] ([] ++ [a]).
Proof.
  apply (@ragged_slot_becomes_object_array rdkit
           [atoms "CCO"; atoms "c1ccccc1"] (Exn ValueError []) [] []);
    reflexivity.
Defined.

Lemma slots_fixed_by_first_success_witness :
  match @outcomes rdkit cfg_labelled true prepare graph_features 0 [1]
          (rows mols) with
  | [] => features (completed labelled_loop) = None
  | (_, input_features, _) :: _ =>
      exists fs, features (completed labelled_loop) = Some fs /\
        length fs = match input_features with
                    | PyTuple t => length t
                    | _ => 1
                    end
                    + match labels cfg_labelled with Some _ => 1 | None => 0 end /\
        (labels cfg_labelled <> None ->
         exists slot o,
           last (@outcomes rdkit cfg_labelled true prepare graph_features 0 [1]
                   (rows mols)) = Some o /\
           last fs = Some (slot ++ [snd o]))
  end.
Proof.
  apply (@slots_fixed_by_first_success rdkit cfg_labelled true prepare
           graph_features 0 [1] (rows mols) (completed labelled_loop)
           emptied (snd labelled_loop)).
  - intros _. discriminate.
  - vm_compute. reflexivity.
Defined.

Lemma result_arrays_aligned_witness :
  exists ret fail success,
    @NumpyTupleDataset rdkit (map ResArray ret) = Ok (returned labelled_parse) /\
    last (logger (snd labelled_parse))
    = Some (INFO, PreprocessFinished fail success (length (rows mols))) /\
    success = length (@outcomes rdkit cfg_labelled false prepare
                        graph_features 0 [1] (rows mols)) /\
    Forall (fun a => array_len a = success) ret /\
    (labels cfg_labelled <> None ->
     exists a, last ret = Some a /\
               array_items a
               = map snd (@outcomes rdkit cfg_labelled false prepare
                            graph_features 0 [1] (rows mols))).
Proof.
  apply (@result_arrays_aligned rdkit cfg_labelled false prepare
           graph_features "mols.csv" mols 0 [1]
           eq_refl eq_refl eq_refl eq_refl
           fresh (returned labelled_parse) (snd labelled_parse)).
  - reflexivity.
  - vm_compute. repeat constructor.
  - vm_compute. reflexivity.
Defined.

Lemma arity_overflow_aborts_parse_witness :
  exists s2,
    @parse rdkit cfg_grow "grow.csv" true fresh
    = (Raise (Exn IndexError [PyStr "list index out of range"]), s2) /\
    logger s2 = logger (snd grow_loop) /\
    @loop_body rdkit cfg_grow true prepare growing_features 0 []
      (completed grow_loop) [PyStr "CC"; PyInt 0] (snd grow_loop)
    = (Raise (Exn IndexError [PyStr "list index out of range"]), s2).
Proof.
  apply (@arity_overflow_aborts_parse rdkit cfg_grow true prepare
           growing_features "grow.csv" grow 0 []
           eq_refl eq_refl eq_refl eq_refl
           fresh (firstn 2 (rows grow)) [PyStr "CC"; PyInt 0]
           [[PyStr "CCO"; PyInt 0]]
           (completed grow_loop) (snd grow_loop)
           ("C", PyTuple [PyInt 6], PyList []) []
           "CC" [PyInt 6; PyInt 6] (PyList [])).
  - reflexivity.
  - vm_compute. reflexivity.
  - vm_compute. reflexivity.
  - vm_compute. reflexivity.
  - vm_compute. lia.
Defined.

(** With labels configured the label slot is one more slot: a later record
    with exactly one value more than the first one raises nothing, its last
    value lands in the label slot, ahead of its labels. *)
Example one_extra_value_lands_in_label_slot :
  fst (@parse_rows rdkit (config prepare growing_features (Some ["y"])) false
         prepare growing_features 0 [1]
         (firstn 3 (rows grow)) initial_locals fresh)
  = Ok {| features := Some [[PyInt 6; PyInt 6];
                            [PyList [PyInt 1]; PyInt 6; PyList [PyInt 0]]];
          fail_count := 1;
          success_count := 2 |}.
Proof. vm_compute. reflexivity. Qed.

End Instances.

(** * The further properties on the concrete toolkits *)

Section MoreInstances.

Import Demo.

Lemma unexpected_exception_logged_and_skipped_witness :
  @loop_body rdkit cfg_atoms true prepare atom_features 0 []
    (completed mols_loop) row_missing (snd mols_loop)
  = (Ok (failed (completed mols_loop)),
     failure_logged (Exn (ExceptionSubclass "ArgumentError") []) (snd mols_loop))
  /\ fail_count (failed (completed mols_loop))
     = S (fail_count (completed mols_loop))
  /\ success_count (failed (completed mols_loop))
     = success_count (completed mols_loop)
  /\ features (failed (completed mols_loop)) = features (completed mols_loop)
  /\ smiles (failure_logged (Exn (ExceptionSubclass "ArgumentError") [])
               (snd mols_loop))
     = smiles (snd mols_loop).
Proof.
  apply (@unexpected_exception_logged_and_skipped rdkit cfg_atoms true prepare
           atom_features 0 [] (completed mols_loop) row_missing
           (Exn (ExceptionSubclass "ArgumentError") []) (snd mols_loop)).
  - apply raised_by_MolFromSmiles. reflexivity.
  - reflexivity.
  - reflexivity.
Defined.

Lemma non_exception_aborts_parse_witness :
  @parse rdkit cfg_interrupt "grow.csv" true fresh
  = (Raise (Exn (BaseExceptionOnly "KeyboardInterrupt") []), snd interrupt_loop).
Proof.
  apply (@non_exception_aborts_parse rdkit cfg_interrupt true prepare
           interrupted_features "grow.csv" grow eq_refl 0 []
           eq_refl eq_refl eq_refl
           fresh (firstn 2 (rows grow)) [PyStr "CC"; PyInt 0]
           [[PyStr "CCO"; PyInt 0]]
           (completed interrupt_loop) (snd interrupt_loop)
           (Exn (BaseExceptionOnly "KeyboardInterrupt") [])).
  - reflexivity.
  - vm_compute. reflexivity.
  - apply (@raised_by_features rdkit cfg_interrupt true prepare
             interrupted_features 0 [] [PyStr "CC"; PyInt 0] _
             "CC" "CC" "CC"); reflexivity.
  - reflexivity.
Defined.

Lemma missing_smiles_column_raises_witness :
  @parse rdkit cfg_wrong_column "mols.csv" true fresh
  = (Raise (Exn KeyError [PyStr "SMILES"]), emptied).
Proof.
  apply (@missing_smiles_column_raises rdkit cfg_wrong_column true prepare
           atom_features "mols.csv" mols eq_refl fresh).
  - reflexivity.
  - simpl. intros [H|[H|[]]]; discriminate H.
Defined.

Lemma missing_label_column_raises_witness :
  @parse rdkit cfg_two_labels "mols.csv" false fresh
  = (Raise (Exn KeyError [PyStr "z"]), fresh).
Proof.
  apply (@missing_label_column_raises rdkit cfg_two_labels false prepare
           atom_features "mols.csv" mols eq_refl fresh ["y"] "z" []).
  - reflexivity.
  - simpl. left. reflexivity.
  - reflexivity.
  - constructor; [simpl; right; left; reflexivity | constructor].
  - simpl. intros [H|[H|[]]]; discriminate H.
Defined.

Lemma legacy_reader_gives_same_parse_witness :
  @parse old_pandas cfg_legacy "legacy.csv" true fresh
  = @parse old_pandas cfg_legacy "mols.csv" true fresh.
Proof.
  apply (@legacy_reader_gives_same_parse old_pandas cfg_legacy true prepare
           atom_features "legacy.csv" mols eq_refl fresh "mols.csv"
           (Exn AttributeError [])); reflexivity.
Defined.

Lemma read_error_propagates_witness :
  @parse rdkit cfg_atoms "nowhere.csv" true fresh
  = (Raise (Exn (ExceptionSubclass "FileNotFoundError") [PyStr "nowhere.csv"]),
     emptied).
Proof.
  apply (@read_error_propagates rdkit cfg_atoms true prepare atom_features
           "nowhere.csv" eq_refl fresh
           (Exn (ExceptionSubclass "FileNotFoundError") [PyStr "nowhere.csv"]));
    reflexivity.
Defined.


Lemma conversion_error_propagates_witness :
  @convert strict_numpy
    (Some ([[PyList [PyInt 1]; PyList [PyInt 1]]]
           ++ [atoms "CCO"; atoms "c1ccccc1"] :: []))
  = Raise (Exn TypeError []).
Proof.
  apply (@conversion_error_propagates strict_numpy
           [[PyList [PyInt 1]; PyList [PyInt 1]]]
           [atoms "CCO"; atoms "c1ccccc1"] [] (Exn TypeError [])).
  - repeat constructor. intros e H. vm_compute in H. discriminate H.
  - reflexivity.
  - reflexivity.
Defined.

Lemma feature_slots_hold_values_in_row_order_witness :
  exists fs slot,
    features (completed labelled_loop) = Some fs /\
    fs !! 1 = Some slot /\
    Forall2 (fun o' v => values (snd (fst o')) !! 1 = Some v)
      (@outcomes rdkit cfg_labelled true prepare graph_features 0 [1]
         (rows mols)) slot.
Proof.
  apply (@feature_slots_hold_values_in_row_order rdkit cfg_labelled true
           prepare graph_features 0 [1] (rows mols) (completed labelled_loop)
           emptied (snd labelled_loop)
           ("CCO", PyTuple [atoms "CCO"; bonds "CCO"], PyList [PyInt 1])
           [("c1ccccc1", PyTuple [atoms "c1ccccc1"; bonds "c1ccccc1"],
             PyList [PyInt 1])]
           1).
  - intros _. discriminate.
  - vm_compute. reflexivity.
  - vm_compute. repeat constructor.
  - vm_compute. reflexivity.
  - vm_compute. lia.
Defined.

Lemma failing_rows_leave_no_trace_witness :
  exists lo2 s2,
    @parse_rows rdkit cfg_atoms true prepare atom_features 0 []
      (@successful_rows rdkit cfg_atoms true prepare atom_features 0 []
         (rows mols)) initial_locals emptied = (Ok lo2, s2) /\
    features lo2 = features (completed mols_loop) /\
    success_count lo2 = success_count (completed mols_loop) /\
    fail_count lo2 = 0 /\
    smiles s2 = smiles (snd mols_loop) /\
    logger s2 = logger emptied.
Proof.
  apply (@failing_rows_leave_no_trace rdkit cfg_atoms true prepare
           atom_features 0 [] (rows mols) (completed mols_loop) emptied
           (snd mols_loop)).
  - intros _. discriminate.
  - vm_compute. reflexivity.
Defined.

Lemma short_record_leaves_slots_uneven_witness :
  @accumulate rdkit cfg_atoms
    {| features := Some ([[PyInt 1]] ++ [[PyInt 2]]);
       fail_count := 0; success_count := 1 |}
    (PyTuple [PyInt 3]) (PyList [])
  = Ok {| features := Some (zip_with (fun slot v => slot ++ [v])
                              [[PyInt 1]] [PyInt 3] ++ [[PyInt 2]]);
          fail_count := 0;
          success_count := 2 |}.
Proof.
  apply (@short_record_leaves_slots_uneven rdkit cfg_atoms
           {| features := Some ([[PyInt 1]] ++ [[PyInt 2]]);
              fail_count := 0; success_count := 1 |}
           [[PyInt 1]] [[PyInt 2]] [PyInt 3] (PyList []));
    reflexivity.
Defined.

Lemma smiles_aligned_with_dataset_witness :
  exists ret a,
    @NumpyTupleDataset rdkit (map ResArray ret) = Ok (returned retained_parse) /\
    get_smiles (snd retained_parse) = (Ok (Some a), snd retained_parse) /\
    array_items a
    = map (fun o => PyStr (fst (fst o)))
        (@outcomes rdkit cfg_labelled true prepare graph_features 0 [1]
           (rows mols)) /\
    Forall (fun r => array_len r = array_len a) ret.
Proof.
  apply (@smiles_aligned_with_dataset rdkit cfg_labelled true prepare
           graph_features "mols.csv" mols eq_refl 0 [1]
           eq_refl eq_refl eq_refl
           fresh (returned retained_parse) (snd retained_parse)).
  - reflexivity.
  - reflexivity.
  - vm_compute. repeat constructor.
  - vm_compute. reflexivity.
Defined.

Lemma other_preprocessor_retains_nothing_witness :
  logger (snd (@parse rdkit cfg_other "mols.csv" true fresh)) = logger fresh /\
  get_smiles (snd (@parse rdkit cfg_other "mols.csv" true fresh))
  = (Ok (Some (numpy_array [])),
     snd (@parse rdkit cfg_other "mols.csv" true fresh)) /\
  snd (@parse rdkit cfg_other "mols.csv" false fresh) = fresh.
Proof.
  apply (@other_preprocessor_retains_nothing rdkit cfg_other whole_file
           eq_refl "mols.csv" fresh).
Defined.


Lemma label_cells_follow_configuration_witness :
  Forall2 (fun c i => columns mols !! i = Some c) ["y"] [1] /\
  forall row : list pyobj, length (map (row_get row) [1]) = length ["y"].
Proof.
  apply (@label_cells_follow_configuration rdkit cfg_labelled mols [1]).
  reflexivity.
Defined.

End MoreInstances.
